(** * ESP32 Internet Radio: command dispatch, session state and start-up

    A shallow embedding of the two sketches of the repository,

    - [src/main.cpp]               (menu items carry a function reference), and
    - [src/esp32InternetRadio.cpp] (the dispatcher switches on the key),

    together with the properties of the dispatcher, the volume controller,
    the speaker toggle, the start-up sequence and the main loop.

    The collaborators ([Serial], [audio], [WiFi], [SPIFFS], [heartbeat] ...)
    are external: every call on one of them is recorded, in program order,
    as an [Event] of the trace, and every value they hand back ([Serial.read],
    [millis], [WiFi.status], the result of [initWiFi]) is an input of the
    model. *)

From Stdlib Require Import ZArith List String Ascii Bool Lia DecimalString.
Import ListNotations.

#[local] Open Scope string_scope.
#[local] Open Scope Z_scope.

(** ** Calls on the external collaborators *)

Inductive Event : Type :=
| Serial_begin (baud : Z)
| Serial_read (c : ascii)
| Serial_print (s : string)
| log_e (s : string)
| pinMode_LED_BUILTIN_OUTPUT
| heartbeat (nBeats t duty : Z)
| initWiFi_call (ssid password hostname : string) (result : bool)
| SPIFFS_begin
| printNearbyNetworks_call
| printConnectionDetails_call
| WiFi_config
| WiFi_setHostname (hostname : string)
| WiFi_begin (ssid password : string)
| WiFi_status (connected : bool)
| delay (ms : Z)
| audio_setPinout
| audio_setVolume (v : Z)
| audio_connecttohost (url : string)
| audio_connecttoFS (file : string)
| audio_connecttospeech (txt lang : string)
| audio_loop.

Definition Trace := list Event.

(** The playback engine is the [audio] object. *)
Definition is_engine (e : Event) : bool :=
  match e with
  | audio_setPinout | audio_setVolume _ | audio_connecttohost _
  | audio_connecttoFS _ | audio_connecttospeech _ _ | audio_loop => true
  | _ => false
  end.

(** Commands to the engine: everything but the service step [audio.loop()]
    and the one-time pin routing. *)
Definition is_engine_command (e : Event) : bool :=
  match e with
  | audio_setVolume _ | audio_connecttohost _
  | audio_connecttoFS _ | audio_connecttospeech _ _ => true
  | _ => false
  end.

Definition is_setVolume (e : Event) : bool :=
  match e with audio_setVolume _ => true | _ => false end.

Definition is_render (e : Event) : bool :=
  match e with Serial_print _ => true | _ => false end.

(** A key stroke is taken from the operator by [Serial.read()]. *)
Definition is_command_input (e : Event) : bool :=
  match e with Serial_read _ => true | _ => false end.

(** ** Globals of a sketch

    Both sketches declare the same file-scope variables; [spkrIsOn] is the
    function-local [static] of [toggleSpeaker]. *)

Record Session : Type := mkSession {
  currentStation : Z;
  currentUrl     : string;
  currentVolume  : Z;
  spkrIsOn       : bool
}.

Definition set_currentStation (i : Z) (s : Session) : Session :=
  mkSession i (currentUrl s) (currentVolume s) (spkrIsOn s).
Definition set_currentUrl (u : string) (s : Session) : Session :=
  mkSession (currentStation s) u (currentVolume s) (spkrIsOn s).
Definition set_currentVolume (v : Z) (s : Session) : Session :=
  mkSession (currentStation s) (currentUrl s) v (spkrIsOn s).
Definition set_spkrIsOn (b : bool) (s : Session) : Session :=
  mkSession (currentStation s) (currentUrl s) (currentVolume s) b.

(** ** A state-and-trace monad for the straight-line code *)

Definition M (A : Type) : Type := Session -> A * Session * Trace.

Definition ret {A} (a : A) : M A := fun s => (a, s, []).

Definition bind {A B} (m : M A) (f : A -> M B) : M B :=
  fun s =>
    let r1 := m s in
    let r2 := f (fst (fst r1)) (snd (fst r1)) in
    (fst (fst r2), snd (fst r2), (snd r1 ++ snd r2)%list).

Definition emit (e : Event) : M unit := fun s => (tt, s, [e]).
Definition gets {A} (f : Session -> A) : M A := fun s => (f s, s, []).
Definition modify (f : Session -> Session) : M unit := fun s => (tt, f s, []).

Declare Scope radio_scope.
Delimit Scope radio_scope with radio.
Notation "x <- m ;; k" := (bind m (fun x => k))
  (at level 61, m at next level, right associativity) : radio_scope.
Notation "m ;; k" := (bind m (fun _ => k))
  (at level 61, right associativity) : radio_scope.
#[local] Open Scope radio_scope.

(** Final globals and trace of a run. *)
Definition final {A} (r : A * Session * Trace) : Session := snd (fst r).
Definition trace {A} (r : A * Session * Trace) : Trace := snd r.

(** ** Constants and text formatting *)

Definition MIN_VOLUME : Z := 0.
Definition MAX_VOLUME : Z := 21.
Definition DEFAULT_VOLUME : Z := 10.

Definition CR : string := String "013"%char EmptyString.
Definition LF : string := String "010"%char EmptyString.

(** [n] blanks: what [printf] pads a field with. *)
Fixpoint blanks (n : nat) : string :=
  match n with
  | O => EmptyString
  | S n' => String " "%char (blanks n')
  end.

(** [%d] *)
Definition fmt_d (z : Z) : string := NilZero.string_of_int (Z.to_int z).
(** [%c] *)
Definition fmt_c (c : ascii) : string := String c EmptyString.

(** ** The volume controller and the speaker toggle

    [incrementVolume], [decrementVolume] and [toggleSpeaker] are the same in
    both sketches up to the text of the [CLEAR_LINE] macro (and an unused
    parameter in [main.cpp]). *)

Module VolumeController.
Section WithClearLine.

Variable CLEAR_LINE_text : string.

Definition CLEAR_LINE : M unit := emit (Serial_print CLEAR_LINE_text).

(** [currentVolume++] is guarded by [currentVolume < MAX_VOLUME] and
    [currentVolume--] by [currentVolume > 0], so the [int] arithmetic
    cannot overflow and is that of [Z]. *)
Definition incrementVolume : M unit :=
  v <- gets currentVolume ;;
  (if v <? MAX_VOLUME
   then modify (set_currentVolume (v + 1)) ;;
        v' <- gets currentVolume ;;
        emit (audio_setVolume v')
   else ret tt) ;;
  CLEAR_LINE ;;
  v'' <- gets currentVolume ;;
  emit (Serial_print ("Current Volume: " ++ fmt_d v'')).

Definition decrementVolume : M unit :=
  v <- gets currentVolume ;;
  (if v >? 0
   then modify (set_currentVolume (v - 1)) ;;
        v' <- gets currentVolume ;;
        emit (audio_setVolume v')
   else ret tt) ;;
  CLEAR_LINE ;;
  v'' <- gets currentVolume ;;
  emit (Serial_print ("Current Volume: " ++ fmt_d v'')).

Definition toggleSpeaker : M unit :=
  on <- gets spkrIsOn ;;
  if on
  then emit (audio_setVolume MIN_VOLUME) ;;
       modify (set_spkrIsOn false) ;;
       CLEAR_LINE ;;
       emit (Serial_print "Speaker is off")
  else v <- gets currentVolume ;;
       (if v =? MIN_VOLUME
        then modify (set_currentVolume DEFAULT_VOLUME)
        else ret tt) ;;
       v' <- gets currentVolume ;;
       emit (audio_setVolume v') ;;
       modify (set_spkrIsOn true) ;;
       CLEAR_LINE ;;
       emit (Serial_print "Speaker is on").

End WithClearLine.
End VolumeController.

(** [n] successive calls of [m]. *)
Fixpoint times (n : nat) (m : M unit) : M unit :=
  match n with
  | O => ret tt
  | S n' => m ;; times n' m
  end.

(** The title of the menu, a raw string literal in both sketches. *)
Definition TITLE : string :=
  LF ++ "-----------------" ++ LF ++
        " ESP32 Web Radio " ++ LF ++
        "-----------------" ++ LF.

(** ** Start-up and the main loop

    What the environment hands to one step of a sketch. *)

Record Input : Type := mkInput {
  (** the network stack's answer: the result of [initWiFi] ([main.cpp]),
      [WiFi.status() == WL_CONNECTED] ([esp32InternetRadio.cpp]) *)
  wifi_ok     : bool;
  (** [millis()] in the initialiser of the static [msPrevious] *)
  millis_init : Z;
  (** [millis()] in the comparison of [waitIsOver] *)
  millis_test : Z;
  (** [millis()] in the assignment of [waitIsOver] *)
  millis_set  : Z;
  (** [None] when [Serial.available()] is 0, else the character
      [Serial.read()] returns *)
  serial_rx   : option ascii
}.

(** [uint32_t] *)
Definition u32 (z : Z) : Z := z mod 2 ^ 32.

(** The function-local statics of [loop]; [entered] tells whether their
    initialisers have run. *)
Record LoopStatics : Type := mkStatics {
  entered    : bool;
  msPrevious : Z;
  done       : bool
}.

Definition statics0 : LoopStatics := mkStatics false 0 false.

(** [waitIsOver(msPrevious, msWait)]: the result and the new [msPrevious]. *)
Definition waitIsOver (msPrevious msWait now_test now_set : Z) : bool * Z :=
  if u32 (u32 now_test - msPrevious) >=? msWait
  then (true, u32 now_set)
  else (false, msPrevious).

Module ControlLoop.
Section WithMenu.

Variable showMenu : M unit.
Variable doMenu : ascii -> M unit.

(** One call of [loop()]. *)
Definition loop (st : LoopStatics * Session) (i : Input)
  : LoopStatics * Session * Trace :=
  let statics := fst st in
  let prev0 := if entered statics then msPrevious statics
               else u32 (millis_init i) in
  (* audio.loop(); *)
  let t0 := [audio_loop] in
  (* if (!done && waitIsOver(msPrevious, 5000)) { done = true; showMenu(); } *)
  let w := if done statics then (false, prev0)
           else waitIsOver prev0 5000 (millis_test i) (millis_set i) in
  let r1 := if fst w then showMenu (snd st) else ret tt (snd st) in
  let done1 := if fst w then true else done statics in
  (* if (Serial.available()) doMenu(); *)
  let r2 := match serial_rx i with
            | Some k => doMenu k (final r1)
            | None => ret tt (final r1)
            end in
  (mkStatics true (snd w) done1, final r2,
   (t0 ++ trace r1 ++ trace r2)%list).

End WithMenu.
End ControlLoop.

(** Where control is between two steps: before [setup]; at the test of the
    [while] of [initWiFi] (only in [esp32InternetRadio.cpp]); inside the
    [while(true) heartbeat(...)] of [setup] (only in [main.cpp]); between two
    calls of [loop]. *)
Inductive ControlPoint : Type := PowerOn | WiFiPolling | WlanFailed | Looping.

Record Machine : Type := mkMachine {
  pc : ControlPoint; session : Session; statics : LoopStatics
}.

(** A sketch runs by steps, one input each. *)
Fixpoint run {St : Type} (step : St -> Input -> St * Trace)
         (m : St) (inputs : list Input) : St * Trace :=
  match inputs with
  | [] => (m, [])
  | i :: rest =>
      let r1 := step m i in
      let r2 := run step (fst r1) rest in
      (fst r2, (snd r1 ++ snd r2)%list)
  end.

(** ** [src/main.cpp] *)

Module Main.

Definition CLEAR_LINE_text : string := CR ++ blanks 79 ++ fmt_c " " ++ CR.

Definition ssid : string := "DodekaGast".
Definition password : string := "episkeptes".
Definition hostname : string := "esp32-radio".

Definition text0 : string :=
  "Internet radio (also web radio, net radio, streaming radio, e-radio, IP radio, online radio) is a digital audio service transmitted via the Internet".
Definition text1 : string :=
  "Als Internetradio (auch Webradio) bezeichnet man ein Internet-basiertes Angebot an Hörfunksendungen".
Definition text2 : string :=
  "Internet radio (anche web radio) è il termine usato per descrivere una gamma di programmi radiofonici su Internet".

(** [Action] is a reference to one of ten functions; the tag names the
    function, [call] below runs it. *)
Inductive Action : Type :=
| fn_playRadio | fn_playMP3
| fn_textToSpeachEn | fn_textToSpeachDe | fn_textToSpeachIt
| fn_incrementVolume | fn_decrementVolume | fn_toggleSpeaker
| fn_showCurrentStation | fn_showMenu.

Record MenuItem : Type := mkItem {
  key : ascii; txt : string; arg : string; action : Action
}.

Definition menu : list MenuItem :=
[ mkItem "0" "MDR-Klassik"       "http://mdr-284350-0.cast.mdr.de/mdr/284350/0/mp3/high/stream.mp3" fn_playRadio;
  mkItem "1" "SRF1 AG-SO"        "http://stream.srg-ssr.ch/m/regi_ag_so/mp3_128"  fn_playRadio;
  mkItem "2" "SRF2"              "http://stream.srg-ssr.ch/m/drs2/mp3_128"        fn_playRadio;
  mkItem "3" "SRF3"              "http://stream.srg-ssr.ch/m/drs3/mp3_128"        fn_playRadio;
  mkItem "4" "SRF4 News"         "http://stream.srg-ssr.ch/m/drs4news/mp3_128"    fn_playRadio;
  mkItem "5" "Swiss Classic"     "http://stream.srg-ssr.ch/m/rsc_de/mp3_128"      fn_playRadio;
  mkItem "6" "Swiss Jazz"        "http://stream.srg-ssr.ch/m/rsj/mp3_128"         fn_playRadio;
  mkItem "7" "SRF Musikwelle"    "http://stream.srg-ssr.ch/m/drsmw/mp3_128"       fn_playRadio;
  mkItem "8" "Alles Blasmusik"   "http://stream.bayerwaldradio.com/allesblasmusik" fn_playRadio;
  mkItem "9" "WKVI-AM"           "http://kvbstreams.dyndns.org:8000/wkvi-am"      fn_playRadio;
  mkItem "a" "DLF"               "http://st01.dlf.de/dlf/01/128/mp3/stream.mp3"   fn_playRadio;
  mkItem "b" "WDR 1 Live"        "http://www.wdr.de/wdrlive/media/einslive.m3u"   fn_playRadio;
  mkItem "c" "SWR1 BW"           "https://liveradio.swr.de/sw282p3/swr1bw/"       fn_playRadio;
  mkItem "d" "SWR2"              "https://liveradio.swr.de/sw282p3/swr2/"         fn_playRadio;
  mkItem "e" "SWR3"              "https://liveradio.swr.de/sw282p3/swr3/"         fn_playRadio;
  mkItem "f" "SWR4 BW"           "https://liveradio.swr.de/sw282p3/swr4bw/"       fn_playRadio;
  mkItem "g" "BR Klassik"        "https://dispatcher.rndfnk.com/br/brklassik/live/mp3/mid" fn_playRadio;
  mkItem "h" "Blues Mobile"      "https://strm112.1.fm/blues_mobile_mp3"          fn_playRadio;
  mkItem "i" "Jazz MMX"          "http://jazz.streamr.ru/jazz-64.mp3"             fn_playRadio;
  mkItem "j" "Radio Classique"   "http://radioclassique.ice.infomaniak.ch/radioclassique-high.mp3" fn_playRadio;
  mkItem "k" "HIT Radio FFH MP3" "http://mp3.ffh.de/radioffh/hqlivestream.mp3"    fn_playRadio;
  mkItem "l" "Capital London"    "http://vis.media-ice.musicradio.com/CapitalMP3" fn_playRadio;
  mkItem "m" "ORF"               "https://orf-live.ors-shoutcast.at/vbg-q1a"      fn_playRadio;
  mkItem "n" "Beatles Radio"     "http://www.beatlesradio.com:8000/stream/1/"     fn_playRadio;
  mkItem "!" "Text to speach en"     text0 fn_textToSpeachEn;
  mkItem "." "Text to speach de"     text1 fn_textToSpeachDe;
  mkItem "," "Text to speach it"     text2 fn_textToSpeachIt;
  mkItem "t" "Test stereo channels" "/stereotest440-445.mp3" fn_playMP3;
  mkItem "+" "Increment volume"      "" fn_incrementVolume;
  mkItem "-" "Decrement volume"      "" fn_decrementVolume;
  mkItem "T" "Toggle speaker on/off" "" fn_toggleSpeaker;
  mkItem "C" "Show current Station"  "" fn_showCurrentStation;
  mkItem "S" "Show Menu"             "" fn_showMenu ].

Definition nbrMenuItems : Z := Z.of_nat (List.length menu).

(** [menu[i]]; every index the program uses is within the array (see
    [run_currentStation_in_range]); the default only makes the access
    total. *)
Definition menu_at (i : Z) : MenuItem :=
  nth (Z.to_nat i) menu (mkItem "000" "" "" fn_showMenu).

Definition init : Session :=
  {| currentStation := 5;
     currentUrl     := arg (menu_at 5);
     currentVolume  := DEFAULT_VOLUME;
     spkrIsOn       := true |}.

Definition showCurrentStation (_ : string) : M unit :=
  VolumeController.CLEAR_LINE CLEAR_LINE_text ;;
  i <- gets currentStation ;;
  u <- gets currentUrl ;;
  emit (Serial_print ("Current Station: " ++ txt (menu_at i) ++ " --> " ++ u)).

(** The body of the [for] loop of [showMenu], from item [i] on. *)
Fixpoint showMenu_items (items : list MenuItem) : M unit :=
  match items with
  | [] => ret tt
  | it :: rest =>
      emit (Serial_print ("[" ++ fmt_c (key it) ++ "] " ++ txt it ++ LF)) ;;
      showMenu_items rest
  end.

Definition showMenu (_ : string) : M unit :=
  emit (Serial_print TITLE) ;;
  showMenu_items menu ;;
  emit (Serial_print (LF ++ "Press a key: ")).

Definition incrementVolume (_ : string) : M unit :=
  VolumeController.incrementVolume CLEAR_LINE_text.
Definition decrementVolume (_ : string) : M unit :=
  VolumeController.decrementVolume CLEAR_LINE_text.
Definition toggleSpeaker (_ : string) : M unit :=
  VolumeController.toggleSpeaker CLEAR_LINE_text.

Definition playRadio (t : string) : M unit := emit (audio_connecttohost t).
Definition playMP3 (file : string) : M unit := emit (audio_connecttoFS file).
Definition textToSpeachDe (t : string) : M unit := emit (audio_connecttospeech t "de").
Definition textToSpeachEn (t : string) : M unit := emit (audio_connecttospeech t "en").
Definition textToSpeachIt (t : string) : M unit := emit (audio_connecttospeech t "it").

Definition call (a : Action) : string -> M unit :=
  match a with
  | fn_playRadio => playRadio
  | fn_playMP3 => playMP3
  | fn_textToSpeachEn => textToSpeachEn
  | fn_textToSpeachDe => textToSpeachDe
  | fn_textToSpeachIt => textToSpeachIt
  | fn_incrementVolume => incrementVolume
  | fn_decrementVolume => decrementVolume
  | fn_toggleSpeaker => toggleSpeaker
  | fn_showCurrentStation => showCurrentStation
  | fn_showMenu => showMenu
  end.

(** The [for] loop of [doMenu] over the items still to visit: the first
    item whose key is the one read has its action called on its argument,
    and [break] ends the loop. *)
Fixpoint doMenu_loop (k : ascii) (items : list MenuItem) : M unit :=
  match items with
  | [] => ret tt
  | it :: rest =>
      if Ascii.eqb k (key it)
      then call (action it) (arg it)
      else doMenu_loop k rest
  end.

(** [k] is the character [Serial.read()] returns. *)
Definition doMenu (k : ascii) : M unit :=
  emit (Serial_read k) ;;
  VolumeController.CLEAR_LINE CLEAR_LINE_text ;;
  doMenu_loop k menu.

(** The item the [for] loop of [doMenu] stops at, if any. *)
Definition first_match (k : ascii) : option MenuItem :=
  find (fun it => Ascii.eqb k (key it)) menu.


Definition initAudio : M unit :=
  emit audio_setPinout ;;
  v <- gets currentVolume ;;
  emit (audio_setVolume v) ;;
  u <- gets currentUrl ;;
  emit (audio_connecttohost u).

(** [setup()], up to its return or to the entry of the endless heartbeat
    loop; [ok] is what the external [initWiFi] returns. *)
Definition setup (ok : bool) : M ControlPoint :=
  emit (Serial_begin 115200) ;;
  emit pinMode_LED_BUILTIN_OUTPUT ;;
  emit (initWiFi_call ssid password hostname ok) ;;
  if negb ok
  then emit (log_e "==> Connection to WLAN failed") ;;
       ret WlanFailed
  else emit SPIFFS_begin ;;
       emit printNearbyNetworks_call ;;
       emit printConnectionDetails_call ;;
       initAudio ;;
       ret Looping.

Definition boot : Machine := mkMachine PowerOn init statics0.

Definition loop := ControlLoop.loop (showMenu "") doMenu.

Definition step (m : Machine) (i : Input) : Machine * Trace :=
  match pc m with
  | PowerOn =>
      let r := setup (wifi_ok i) (session m) in
      (mkMachine (fst (fst r)) (final r) (statics m), trace r)
  | WlanFailed =>
      (* one turn of while(true) heartbeat(LED_BUILTIN, 3, 1, 5); *)
      (m, [heartbeat 3 1 5])
  | WiFiPolling => (m, []) (* not a control point of this sketch *)
  | Looping =>
      let r := loop (statics m, session m) i in
      (mkMachine Looping (snd (fst r)) (fst (fst r)), snd r)
  end.

End Main.

(** ** [src/esp32InternetRadio.cpp] *)

Module Esp32InternetRadio.

Definition CLEAR_LINE_text : string := CR ++ blanks 128 ++ "" ++ CR.

Definition ssid : string := "YOUR SSID".
Definition password : string := "YOUR PSK".
Definition hostname : string := "esp32-radio".

Definition text0 : string :=
  "Internet radio (also web radio, net radio, streaming radio, e-radio, IP radio, online radio) is a digital audio service transmitted via the Internet.".
Definition text1 : string :=
  "Als Internetradio (auch Webradio) bezeichnet man ein Internet-basiertes Angebot an Hörfunksendungen.".
Definition text2 : string :=
  "Internet radio (anche web radio) è il termine usato per descrivere una gamma di programmi radiofonici su Internet.".

Record Radiostation : Type := mkStation {
  key : ascii; name : string; url : string
}.

Definition station : list Radiostation :=
[ mkStation "0" "Klassik Radio"     "http://stream.klassikradio.de/live/mp3-128/stream.klassikradio.de";
  mkStation "1" "SRF1 AG-SO"        "http://stream.srg-ssr.ch/m/regi_ag_so/mp3_128";
  mkStation "2" "SRF2"              "http://stream.srg-ssr.ch/m/drs2/mp3_128";
  mkStation "3" "SRF3"              "http://stream.srg-ssr.ch/m/drs3/mp3_128";
  mkStation "4" "SRF4 News"         "http://stream.srg-ssr.ch/m/drs4news/mp3_128";
  mkStation "5" "Swiss Classic"     "http://stream.srg-ssr.ch/m/rsc_de/mp3_128";
  mkStation "6" "Swiss Jazz"        "http://stream.srg-ssr.ch/m/rsj/mp3_128";
  mkStation "7" "SRF Musikwelle"    "http://stream.srg-ssr.ch/m/drsmw/mp3_128";
  mkStation "8" "Alles Blasmusik"   "http://stream.bayerwaldradio.com/allesblasmusik";
  mkStation "9" "WKVI-AM"           "http://kvbstreams.dyndns.org:8000/wkvi-am";
  mkStation "a" "DLF"               "http://st01.dlf.de/dlf/01/128/mp3/stream.mp3";
  mkStation "b" "WDR 1 Live"        "http://www.wdr.de/wdrlive/media/einslive.m3u";
  mkStation "c" "SWR1 BW"           "http://mp3-live.swr.de/swr1bw_m.m3u";
  mkStation "d" "SWR2"              "http://mp3-live.swr.de/swr2_m.m3u";
  mkStation "e" "SWR3"              "http://mp3-live.swr3.de/swr3_m.m3u";
  mkStation "f" "SWR4 BW"           "http://mp3-live.swr.de/swr4bw_m.m3u";
  mkStation "g" "SWR Aktuell"       "http://mp3-live.swr.de/swraktuell_m.m3u";
  mkStation "h" "DasDing"           "http://mp3-live.dasding.de/dasding_m.m3u";
  mkStation "i" "Jazz MMX"          "http://jazz.streamr.ru/jazz-64.mp3";
  mkStation "j" "Irish Pub Radio"   "http://macslons-irish-pub-radio.com/media.asx";
  mkStation "k" "HIT Radio FFH MP3" "http://mp3.ffh.de/radioffh/hqlivestream.mp3";
  mkStation "l" "Capital London"    "http://vis.media-ice.musicradio.com/CapitalMP3";
  mkStation "m" "ORF"               "https://orf-live.ors-shoutcast.at/vbg-q1a";
  mkStation "n" "Beatles Radio"     "http://www.beatlesradio.com:8000/stream/1/";
  mkStation "!" "Speech 1"              "";
  mkStation "." "Speech 2"              "";
  mkStation "," "Speech 3"              "";
  mkStation "+" "Increment volume"      "";
  mkStation "-" "Decrement volume"      "";
  mkStation "T" "Toggle speaker on/off" "";
  mkStation "C" "Show current Station"  "";
  mkStation "S" "Show Menu"             "" ].

Definition nbrRadiostations : Z := Z.of_nat (List.length station).

(** [station[i]]; every index the program uses is within the array (see
    [run_currentStation_in_range]); the default only makes the access
    total. *)
Definition station_at (i : Z) : Radiostation :=
  nth (Z.to_nat i) station (mkStation "000" "" "").

Definition init : Session :=
  {| currentStation := 5;
     currentUrl     := url (station_at 5);
     currentVolume  := DEFAULT_VOLUME;
     spkrIsOn       := true |}.

Definition showCurrentStation : M unit :=
  VolumeController.CLEAR_LINE CLEAR_LINE_text ;;
  i <- gets currentStation ;;
  u <- gets currentUrl ;;
  emit (Serial_print ("Current Station: " ++ name (station_at i) ++ " --> " ++ u)).

Fixpoint showMenu_items (items : list Radiostation) : M unit :=
  match items with
  | [] => ret tt
  | st :: rest =>
      emit (Serial_print ("[" ++ fmt_c (key st) ++ "] " ++ name st ++ LF)) ;;
      showMenu_items rest
  end.

Definition showMenu : M unit :=
  emit (Serial_print TITLE) ;;
  showMenu_items station ;;
  emit (Serial_print (LF ++ "Press a key: ")).

Definition incrementVolume : M unit :=
  VolumeController.incrementVolume CLEAR_LINE_text.
Definition decrementVolume : M unit :=
  VolumeController.decrementVolume CLEAR_LINE_text.
Definition toggleSpeaker : M unit :=
  VolumeController.toggleSpeaker CLEAR_LINE_text.

(** The [switch (key)] of [doMenu], entered with [key == station[i].key]. *)
Definition doMenu_switch (k : ascii) (i : Z) : M unit :=
  if Ascii.eqb k "S" then showMenu
  else if Ascii.eqb k "C" then showCurrentStation
  else if Ascii.eqb k "T" then toggleSpeaker
  else if Ascii.eqb k "!" then emit (audio_connecttospeech text0 "en")
  else if Ascii.eqb k "." then emit (audio_connecttospeech text1 "de")
  else if Ascii.eqb k "," then emit (audio_connecttospeech text2 "it")
  else if Ascii.eqb k "+" then incrementVolume
  else if Ascii.eqb k "-" then decrementVolume
  else (* default *)
    modify (set_currentStation i) ;;
    modify (set_currentUrl (url (station_at i))) ;;
    u <- gets currentUrl ;;
    emit (audio_connecttohost u).

(** The [for] loop of [doMenu] from index [i] on; [items] are
    [station[i]], [station[i+1]], ...  The first match runs the switch and
    leaves the loop. *)
Fixpoint doMenu_loop (k : ascii) (i : Z) (items : list Radiostation) : M unit :=
  match items with
  | [] => ret tt
  | st :: rest =>
      if Ascii.eqb k (key st)
      then doMenu_switch k i
      else doMenu_loop k (i + 1) rest
  end.

Definition doMenu (k : ascii) : M unit :=
  emit (Serial_read k) ;;
  VolumeController.CLEAR_LINE CLEAR_LINE_text ;;
  doMenu_loop k 0 station.

(** The index the [for] loop of [doMenu] stops at, if any, when it visits
    [items] from index [i] on. *)
Fixpoint first_match_from (k : ascii) (i : Z) (items : list Radiostation)
  : option Z :=
  match items with
  | [] => None
  | st :: rest =>
      if Ascii.eqb k (key st) then Some i
      else first_match_from k (i + 1) rest
  end.

Definition first_match (k : ascii) : option Z := first_match_from k 0 station.

(** Whether [k] has a [case] of its own in the [switch] of [doMenu]; the
    other keys of the table, the stations, take the [default]. *)
Definition has_case (k : ascii) : bool :=
  existsb (Ascii.eqb k) ["S"; "C"; "T"; "!"; "."; ","; "+"; "-"]%char.



Definition initAudio : M unit :=
  emit audio_setPinout ;;
  v <- gets currentVolume ;;
  emit (audio_setVolume v) ;;
  u <- gets currentUrl ;;
  emit (audio_connecttohost u).

(** [Serial.println] *)
Definition println (s : string) : Event := Serial_print (s ++ CR ++ LF).

(** [setup()] and [initWiFi()] up to the first test of the [while]. *)
Definition setup_begin : M ControlPoint :=
  emit (Serial_begin 115200) ;;
  emit (println "Connecting to WiFi") ;;
  emit WiFi_config ;;
  emit (WiFi_setHostname hostname) ;;
  emit (WiFi_begin ssid password) ;;
  ret WiFiPolling.

(** One test of [while (WiFi.status() != WL_CONNECTED)]: a turn of the
    loop, or the rest of [initWiFi()] and of [setup()].  The text of
    [printConnectionDetails] is made of values only the network stack
    knows; the call is one event. *)
Definition initWiFi_poll (connected : bool) : M ControlPoint :=
  emit (WiFi_status connected) ;;
  if negb connected
  then emit (println "...Connecting to WiFi") ;;
       emit (delay 1000) ;;
       ret WiFiPolling
  else emit (println "Connected") ;;
       emit printConnectionDetails_call ;;
       initAudio ;;
       ret Looping.

Definition boot : Machine := mkMachine PowerOn init statics0.

Definition loop := ControlLoop.loop showMenu doMenu.

Definition step (m : Machine) (i : Input) : Machine * Trace :=
  match pc m with
  | PowerOn =>
      let r := setup_begin (session m) in
      (mkMachine (fst (fst r)) (final r) (statics m), trace r)
  | WiFiPolling =>
      let r := initWiFi_poll (wifi_ok i) (session m) in
      (mkMachine (fst (fst r)) (final r) (statics m), trace r)
  | WlanFailed => (m, []) (* not a control point of this sketch *)
  | Looping =>
      let r := loop (statics m, session m) i in
      (mkMachine Looping (snd (fst r)) (fst (fst r)), snd r)
  end.

End Esp32InternetRadio.

(** ** The two sketches side by side *)

Inductive Sketch : Type := main_cpp | esp32InternetRadio_cpp.

Definition init_of (sk : Sketch) : Session :=
  match sk with
  | main_cpp => Main.init
  | esp32InternetRadio_cpp => Esp32InternetRadio.init
  end.

(** The symbols of the catalog, in catalog order. *)
Definition keys_of (sk : Sketch) : list ascii :=
  match sk with
  | main_cpp => map Main.key Main.menu
  | esp32InternetRadio_cpp => map Esp32InternetRadio.key Esp32InternetRadio.station
  end.

Definition doMenu_of (sk : Sketch) : ascii -> M unit :=
  match sk with
  | main_cpp => Main.doMenu
  | esp32InternetRadio_cpp => Esp32InternetRadio.doMenu
  end.

Definition incrementVolume_of (sk : Sketch) : M unit :=
  match sk with
  | main_cpp => Main.incrementVolume ""
  | esp32InternetRadio_cpp => Esp32InternetRadio.incrementVolume
  end.

Definition decrementVolume_of (sk : Sketch) : M unit :=
  match sk with
  | main_cpp => Main.decrementVolume ""
  | esp32InternetRadio_cpp => Esp32InternetRadio.decrementVolume
  end.

Definition toggleSpeaker_of (sk : Sketch) : M unit :=
  match sk with
  | main_cpp => Main.toggleSpeaker ""
  | esp32InternetRadio_cpp => Esp32InternetRadio.toggleSpeaker
  end.

Definition boot_of (sk : Sketch) : Machine :=
  match sk with
  | main_cpp => Main.boot
  | esp32InternetRadio_cpp => Esp32InternetRadio.boot
  end.

Definition step_of (sk : Sketch) : Machine -> Input -> Machine * Trace :=
  match sk with
  | main_cpp => Main.step
  | esp32InternetRadio_cpp => Esp32InternetRadio.step
  end.

Definition nbr_of (sk : Sketch) : Z :=
  match sk with
  | main_cpp => Main.nbrMenuItems
  | esp32InternetRadio_cpp => Esp32InternetRadio.nbrRadiostations
  end.

(** [currentStation] is an index of the table. *)
Definition currentStation_in_range (sk : Sketch) (s : Session) : Prop :=
  0 <= currentStation s < nbr_of sk.

(** The volume level stays within the engine's range. *)
Definition volume_in_range (s : Session) : Prop :=
  MIN_VOLUME <= currentVolume s <= MAX_VOLUME.

(** ** Comparing sessions, counting effects *)

Definition Session_eqb (a b : Session) : bool :=
  (currentStation a =? currentStation b) &&
  String.eqb (currentUrl a) (currentUrl b) &&
  (currentVolume a =? currentVolume b) &&
  Bool.eqb (spkrIsOn a) (spkrIsOn b).

(** The three kinds of side effect of a run from [s]: whether the globals
    changed, how many commands went to the engine, how many texts were
    written to the operator. *)
Definition mutated {A} (s : Session) (r : A * Session * Trace) : bool :=
  negb (Session_eqb s (final r)).
Definition engine_commands {A} (r : A * Session * Trace) : Trace :=
  filter is_engine_command (trace r).
Definition renders {A} (r : A * Session * Trace) : Trace :=
  filter is_render (trace r).

Definition profile {A} (s : Session) (r : A * Session * Trace) : bool * nat * nat :=
  (mutated s r, List.length (engine_commands r), List.length (renders r)).

(** In how many of the three categories a run from [s] has an effect. *)
Definition categories {A} (s : Session) (r : A * Session * Trace) : nat :=
  Nat.b2n (mutated s r) +
  Nat.b2n (existsb is_engine_command (trace r)) +
  Nat.b2n (existsb is_render (trace r)).

(** ** Observing the side effects of one dispatch *)

(** What an action of [main.cpp] does, whatever its argument. *)
Definition main_action_profile (a : Main.Action) (s : Session) : bool * nat * nat :=
  match a with
  | Main.fn_playRadio | Main.fn_playMP3
  | Main.fn_textToSpeachEn | Main.fn_textToSpeachDe | Main.fn_textToSpeachIt =>
      (false, 1%nat, 0%nat)
  | Main.fn_incrementVolume =>
      (currentVolume s <? MAX_VOLUME,
       Nat.b2n (currentVolume s <? MAX_VOLUME), 2%nat)
  | Main.fn_decrementVolume =>
      (currentVolume s >? 0, Nat.b2n (currentVolume s >? 0), 2%nat)
  | Main.fn_toggleSpeaker => (true, 1%nat, 2%nat)
  | Main.fn_showCurrentStation => (false, 0%nat, 2%nat)
  | Main.fn_showMenu => (false, 0%nat, 35%nat)
  end.

(** What the [switch] of [esp32InternetRadio.cpp] does on key [k] at index
    [i]. *)
Definition esp_switch_profile (k : ascii) (i : Z) (s : Session) : bool * nat * nat :=
  if Ascii.eqb k "S" then (false, 0%nat, 34%nat)
  else if Ascii.eqb k "C" then (false, 0%nat, 2%nat)
  else if Ascii.eqb k "T" then (true, 1%nat, 2%nat)
  else if Ascii.eqb k "!" then (false, 1%nat, 0%nat)
  else if Ascii.eqb k "." then (false, 1%nat, 0%nat)
  else if Ascii.eqb k "," then (false, 1%nat, 0%nat)
  else if Ascii.eqb k "+" then
    (currentVolume s <? MAX_VOLUME,
     Nat.b2n (currentVolume s <? MAX_VOLUME), 2%nat)
  else if Ascii.eqb k "-" then
    (currentVolume s >? 0, Nat.b2n (currentVolume s >? 0), 2%nat)
  else
    (negb ((currentStation s =? i) &&
           String.eqb (currentUrl s)
                      (Esp32InternetRadio.url (Esp32InternetRadio.station_at i))),
     1%nat, 0%nat).

(** One more text is written by [doMenu] itself: [CLEAR_LINE]. *)
Definition with_clear_line (p : bool * nat * nat) : bool * nat * nat :=
  (fst (fst p), snd (fst p), S (snd p)).

(** The side effects of [doMenu] on key [k] from the globals [s]. *)
Definition dispatch_profile (sk : Sketch) (k : ascii) (s : Session)
  : bool * nat * nat :=
  match sk with
  | main_cpp =>
      match Main.first_match k with
      | Some it => with_clear_line (main_action_profile (Main.action it) s)
      | None => (false, 0%nat, 1%nat)
      end
  | esp32InternetRadio_cpp =>
      match Esp32InternetRadio.first_match k with
      | Some i => with_clear_line (esp_switch_profile k i s)
      | None => (false, 0%nat, 1%nat)
      end
  end.

(** ** Observing the connection *)

(** The network is known to be reachable: [initWiFi] returned [true]
    ([main.cpp]), or [WiFi.status()] was [WL_CONNECTED]
    ([esp32InternetRadio.cpp]). *)
Definition connected_event (e : Event) : bool :=
  match e with
  | initWiFi_call _ _ _ true => true
  | WiFi_status true => true
  | _ => false
  end.

(** Command handling (a key is read) or a call on the engine. *)
Definition needs_connection (e : Event) : bool :=
  is_command_input e || is_engine e.

(** No event that needs the connection comes before the first
    [connected_event]; [c] tells whether one was seen already. *)
Fixpoint gated (c : bool) (t : Trace) : bool :=
  match t with
  | [] => true
  | e :: t' =>
      (c || negb (needs_connection e)) && gated (c || connected_event e) t'
  end.

Definition with_wifi (b : bool) (i : Input) : Input :=
  mkInput b (millis_init i) (millis_test i) (millis_set i) (serial_rx i).

(** ** Observing the menu *)

(** The menu is on its way out when its title is written. *)
Definition is_menu_title (e : Event) : bool :=
  match e with
  | Serial_print s => String.eqb s TITLE
  | _ => false
  end.

(** How many times the menu is rendered in a trace. *)
Definition menu_renders (t : Trace) : nat :=
  List.length (filter is_menu_title t).

(** The input brings the key of "Show Menu". *)
Definition is_ShowMenu_key (i : Input) : bool :=
  match serial_rx i with
  | Some k => Ascii.eqb k "S"
  | None => false
  end.

(** How many of the inputs do. *)
Definition ShowMenu_keys (inputs : list Input) : nat :=
  List.length (filter is_ShowMenu_key inputs).

(** ** The event handlers of the engine

    [audio_info], [audio_id3data], ... are called by the engine from inside
    [audio.loop()]; they are the same in both sketches: a label, then the
    text the engine hands over, on one line. *)

(** [Serial.println] *)
Definition Serial_println (s : string) : Event := Serial_print (s ++ CR ++ LF).

Definition audio_info (info : string) : M unit :=
  emit (Serial_print "info        ") ;; emit (Serial_println info).
Definition audio_id3data (info : string) : M unit :=
  emit (Serial_print "id3data     ") ;; emit (Serial_println info).
Definition audio_eof_mp3 (info : string) : M unit :=
  emit (Serial_print "eof_mp3     ") ;; emit (Serial_println info).
Definition audio_showstation (info : string) : M unit :=
  emit (Serial_print "station     ") ;; emit (Serial_println info).
Definition audio_showstreaminfo (info : string) : M unit :=
  emit (Serial_print "streaminfo  ") ;; emit (Serial_println info).
Definition audio_showstreamtitle (info : string) : M unit :=
  emit (Serial_print "streamtitle ") ;; emit (Serial_println info).
Definition audio_bitrate (info : string) : M unit :=
  emit (Serial_print "bitrate     ") ;; emit (Serial_println info).
Definition audio_commercial (info : string) : M unit :=
  emit (Serial_print "commercial  ") ;; emit (Serial_println info).
Definition audio_icyurl (info : string) : M unit :=
  emit (Serial_print "icyurl      ") ;; emit (Serial_println info).
Definition audio_lasthost (info : string) : M unit :=
  emit (Serial_print "lasthost    ") ;; emit (Serial_println info).
Definition audio_eof_speech (info : string) : M unit :=
  emit (Serial_print "eof_speech  ") ;; emit (Serial_println info).

(** The eleven handlers. *)
Definition event_handlers : list (string -> M unit) :=
  [audio_info; audio_id3data; audio_eof_mp3; audio_showstation;
   audio_showstreaminfo; audio_showstreamtitle; audio_bitrate;
   audio_commercial; audio_icyurl; audio_lasthost; audio_eof_speech].

(** ** Further observations on traces *)

(** What the operator reads: the texts written to [Serial], in order. *)
Fixpoint serial_text (t : Trace) : string :=
  match t with
  | [] => EmptyString
  | Serial_print s :: t' => s ++ serial_text t'
  | _ :: t' => serial_text t'
  end.

(** The level the engine is at: the argument of the last
    [audio.setVolume], [ev] if there was none. *)
Fixpoint engine_volume (ev : option Z) (t : Trace) : option Z :=
  match t with
  | [] => ev
  | audio_setVolume v :: t' => engine_volume (Some v) t'
  | _ :: t' => engine_volume ev t'
  end.

(** The engine's level agrees with the globals: it is [currentVolume] while
    the speaker is on, and 0 or [currentVolume] while it is off. *)
Definition engine_mirrors (s : Session) (ev : option Z) : Prop :=
  if spkrIsOn s
  then ev = Some (currentVolume s)
  else ev = Some 0 \/ ev = Some (currentVolume s).

(** While [setup()] has not finished (power-on, polling, failure heartbeat)
    the engine was not told a level and the speaker flag is on; once
    [setup()] has returned, the engine mirrors the globals. *)
Definition engine_state_ok (m : Machine) (ev : option Z) : Prop :=
  volume_in_range (session m) /\
  match pc m with
  | Looping => engine_mirrors (session m) ev
  | _ => ev = None /\ spkrIsOn (session m) = true
  end.

(** A call of [audio.setVolume] stays within 0..21. *)
Definition setVolume_in_range (e : Event) : bool :=
  match e with
  | audio_setVolume v => (MIN_VOLUME <=? v) && (v <=? MAX_VOLUME)
  | _ => true
  end.

Definition is_audio_loop (e : Event) : bool :=
  match e with audio_loop => true | _ => false end.

Definition is_delay (e : Event) : bool :=
  match e with delay _ => true | _ => false end.

(** How many events of a trace satisfy [f]. *)
Definition count_events (f : Event -> bool) (t : Trace) : nat :=
  List.length (filter f t).

(** The input brings a key. *)
Definition has_key (i : Input) : bool :=
  match serial_rx i with Some _ => true | None => false end.

(** The line of the menu for an entry, [printf("[%c] %s\n", ...)]. *)
Definition main_menu_line (it : Main.MenuItem) : Event :=
  Serial_print ("[" ++ fmt_c (Main.key it) ++ "] " ++ Main.txt it ++ LF).
Definition esp_menu_line (st : Esp32InternetRadio.Radiostation) : Event :=
  Serial_print ("[" ++ fmt_c (Esp32InternetRadio.key st) ++ "] "
                ++ Esp32InternetRadio.name st ++ LF).

(** The selection of [esp32InternetRadio.cpp] is one of the 24 stations and
    [currentUrl] is its URL. *)
Definition esp_selection_consistent (s : Session) : Prop :=
  0 <= currentStation s < 24 /\
  currentUrl s =
  Esp32InternetRadio.url (Esp32InternetRadio.station_at (currentStation s)).

(** ** What one dispatch does, written out

    The globals and the calls a dispatch ends with, action by action, as
    plain values: no monad, no loop. *)

(** [Serial.printf("Current Volume: %d", v)] *)
Definition volume_line (v : Z) : Event :=
  Serial_print ("Current Volume: " ++ fmt_d v).

(** Increment: below the ceiling the level goes up by one and the new level
    is sent to the engine; at the ceiling neither; the line is cleared and
    the level written in both cases. *)
Definition increment_outcome (cl : string) (s : Session) : Session * Trace :=
  let v := currentVolume s in
  if v <? MAX_VOLUME
  then (set_currentVolume (v + 1) s,
        [audio_setVolume (v + 1); Serial_print cl; volume_line (v + 1)])
  else (s, [Serial_print cl; volume_line v]).

(** Decrement: the same at the floor. *)
Definition decrement_outcome (cl : string) (s : Session) : Session * Trace :=
  let v := currentVolume s in
  if v >? 0
  then (set_currentVolume (v - 1) s,
        [audio_setVolume (v - 1); Serial_print cl; volume_line (v - 1)])
  else (s, [Serial_print cl; volume_line v]).

(** Toggle: with the speaker on, level 0 is sent to the engine, the flag is
    cleared and the stored level kept; with the speaker off, a stored level
    of 0 becomes [DEFAULT_VOLUME], the stored level is sent and the flag is
    set.  The line is cleared and the new status written. *)
Definition toggle_outcome (cl : string) (s : Session) : Session * Trace :=
  if spkrIsOn s
  then (set_spkrIsOn false s,
        [audio_setVolume 0; Serial_print cl; Serial_print "Speaker is off"])
  else
    let v := if currentVolume s =? 0 then DEFAULT_VOLUME else currentVolume s in
    (set_spkrIsOn true (set_currentVolume v s),
     [audio_setVolume v; Serial_print cl; Serial_print "Speaker is on"]).

(** The action of an entry of [main.cpp]. *)
Definition main_action_outcome (it : Main.MenuItem) (s : Session)
  : Session * Trace :=
  match Main.action it with
  | Main.fn_playRadio => (s, [audio_connecttohost (Main.arg it)])
  | Main.fn_playMP3 => (s, [audio_connecttoFS (Main.arg it)])
  | Main.fn_textToSpeachEn => (s, [audio_connecttospeech (Main.arg it) "en"])
  | Main.fn_textToSpeachDe => (s, [audio_connecttospeech (Main.arg it) "de"])
  | Main.fn_textToSpeachIt => (s, [audio_connecttospeech (Main.arg it) "it"])
  | Main.fn_incrementVolume => increment_outcome Main.CLEAR_LINE_text s
  | Main.fn_decrementVolume => decrement_outcome Main.CLEAR_LINE_text s
  | Main.fn_toggleSpeaker => toggle_outcome Main.CLEAR_LINE_text s
  | Main.fn_showCurrentStation =>
      (s, [Serial_print Main.CLEAR_LINE_text;
           Serial_print ("Current Station: "
                         ++ Main.txt (Main.menu_at (currentStation s))
                         ++ " --> " ++ currentUrl s)])
  | Main.fn_showMenu =>
      (s, (Serial_print TITLE :: map main_menu_line Main.menu
           ++ [Serial_print (LF ++ "Press a key: ")])%list)
  end.

(** The key [k], found at index [i] of the table of
    [esp32InternetRadio.cpp]. *)
Definition esp_key_outcome (k : ascii) (i : Z) (s : Session)
  : Session * Trace :=
  if Ascii.eqb k "S" then
    (s, (Serial_print TITLE :: map esp_menu_line Esp32InternetRadio.station
         ++ [Serial_print (LF ++ "Press a key: ")])%list)
  else if Ascii.eqb k "C" then
    (s, [Serial_print Esp32InternetRadio.CLEAR_LINE_text;
         Serial_print ("Current Station: "
                       ++ Esp32InternetRadio.name
                            (Esp32InternetRadio.station_at (currentStation s))
                       ++ " --> " ++ currentUrl s)])
  else if Ascii.eqb k "T" then toggle_outcome Esp32InternetRadio.CLEAR_LINE_text s
  else if Ascii.eqb k "!" then
    (s, [audio_connecttospeech Esp32InternetRadio.text0 "en"])
  else if Ascii.eqb k "." then
    (s, [audio_connecttospeech Esp32InternetRadio.text1 "de"])
  else if Ascii.eqb k "," then
    (s, [audio_connecttospeech Esp32InternetRadio.text2 "it"])
  else if Ascii.eqb k "+" then
    increment_outcome Esp32InternetRadio.CLEAR_LINE_text s
  else if Ascii.eqb k "-" then
    decrement_outcome Esp32InternetRadio.CLEAR_LINE_text s
  else
    (* a station: it becomes the selection and its stream is requested *)
    let u := Esp32InternetRadio.url (Esp32InternetRadio.station_at i) in
    (mkSession i u (currentVolume s) (spkrIsOn s), [audio_connecttohost u]).

(** One dispatch: the key is read, the line is cleared, and the entry the
    key belongs to, if any, has its action run once. *)
Definition dispatch_outcome (sk : Sketch) (k : ascii) (s : Session)
  : Session * Trace :=
  match sk with
  | main_cpp =>
      match Main.first_match k with
      | Some it =>
          (fst (main_action_outcome it s),
           Serial_read k :: Serial_print Main.CLEAR_LINE_text ::
           snd (main_action_outcome it s))
      | None => (s, [Serial_read k; Serial_print Main.CLEAR_LINE_text])
      end
  | esp32InternetRadio_cpp =>
      match Esp32InternetRadio.first_match k with
      | Some i =>
          (fst (esp_key_outcome k i s),
           Serial_read k :: Serial_print Esp32InternetRadio.CLEAR_LINE_text ::
           snd (esp_key_outcome k i s))
      | None =>
          (s, [Serial_read k; Serial_print Esp32InternetRadio.CLEAR_LINE_text])
      end
  end.

(** ** Basic facts on the monad *)

Lemma Session_eqb_eq (a b : Session) : Session_eqb a b = true <-> a = b.
Proof.
  unfold Session_eqb. split.
  - intros H. repeat (apply andb_prop in H; destruct H as [H ?]).
    destruct a, b; cbn in *.
    apply Z.eqb_eq in H. apply String.eqb_eq in H2. apply Z.eqb_eq in H1.
    apply Bool.eqb_prop in H0. congruence.
  - intros <-. rewrite !Z.eqb_refl, String.eqb_refl, Bool.eqb_reflx. reflexivity.
Qed.

Lemma Session_eqb_refl (a : Session) : Session_eqb a a = true.
Proof. now apply Session_eqb_eq. Qed.

Lemma final_bind {A B} (m : M A) (f : A -> M B) (s : Session) :
  final (bind m f s) = final (f (fst (fst (m s))) (final (m s))).
Proof. reflexivity. Qed.

Lemma trace_bind {A B} (m : M A) (f : A -> M B) (s : Session) :
  trace (bind m f s) = (trace (m s) ++ trace (f (fst (fst (m s))) (final (m s))))%list.
Proof. reflexivity. Qed.

Lemma session_eta (s : Session) :
  mkSession (currentStation s) (currentUrl s) (currentVolume s) (spkrIsOn s) = s.
Proof. destruct s; reflexivity. Qed.

(** ** The volume controller *)

Section VolumeFacts.

Variable cl : string.

Let inc := VolumeController.incrementVolume cl.
Let dec := VolumeController.decrementVolume cl.
Let tog := VolumeController.toggleSpeaker cl.

Lemma incrementVolume_final (s : Session) :
  final (inc s) =
  set_currentVolume
    (if currentVolume s <? MAX_VOLUME then currentVolume s + 1 else currentVolume s) s.
Proof.
  unfold inc, VolumeController.incrementVolume, final, bind, gets; cbn.
  destruct (currentVolume s <? MAX_VOLUME); cbn; [reflexivity|].
  unfold set_currentVolume. now rewrite session_eta.
Qed.

Lemma decrementVolume_final (s : Session) :
  final (dec s) =
  set_currentVolume
    (if currentVolume s >? 0 then currentVolume s - 1 else currentVolume s) s.
Proof.
  unfold dec, VolumeController.decrementVolume, final, bind, gets; cbn.
  destruct (currentVolume s >? 0); cbn; [reflexivity|].
  unfold set_currentVolume. now rewrite session_eta.
Qed.

Lemma incrementVolume_trace (s : Session) :
  trace (inc s) =
  ((if currentVolume s <? MAX_VOLUME
    then [audio_setVolume (currentVolume s + 1)] else []) ++
   [Serial_print cl;
    Serial_print ("Current Volume: " ++
      fmt_d (if currentVolume s <? MAX_VOLUME
             then currentVolume s + 1 else currentVolume s))])%list.
Proof.
  unfold inc, VolumeController.incrementVolume, trace, bind, gets; cbn.
  destruct (currentVolume s <? MAX_VOLUME); reflexivity.
Qed.

Lemma decrementVolume_trace (s : Session) :
  trace (dec s) =
  ((if currentVolume s >? 0
    then [audio_setVolume (currentVolume s - 1)] else []) ++
   [Serial_print cl;
    Serial_print ("Current Volume: " ++
      fmt_d (if currentVolume s >? 0
             then currentVolume s - 1 else currentVolume s))])%list.
Proof.
  unfold dec, VolumeController.decrementVolume, trace, bind, gets; cbn.
  destruct (currentVolume s >? 0); reflexivity.
Qed.

Lemma toggleSpeaker_final (s : Session) :
  final (tog s) =
  if spkrIsOn s
  then set_spkrIsOn false s
  else set_spkrIsOn true
         (set_currentVolume
            (if currentVolume s =? MIN_VOLUME then DEFAULT_VOLUME
             else currentVolume s) s).
Proof.
  unfold tog, VolumeController.toggleSpeaker, final, bind, gets; cbn.
  destruct (spkrIsOn s); cbn; [reflexivity|].
  destruct (currentVolume s =? MIN_VOLUME); reflexivity.
Qed.

Lemma toggleSpeaker_trace (s : Session) :
  trace (tog s) =
  if spkrIsOn s
  then [audio_setVolume MIN_VOLUME; Serial_print cl; Serial_print "Speaker is off"]
  else [audio_setVolume (if currentVolume s =? MIN_VOLUME then DEFAULT_VOLUME
                         else currentVolume s);
        Serial_print cl; Serial_print "Speaker is on"].
Proof.
  unfold tog, VolumeController.toggleSpeaker, trace, bind, gets; cbn.
  destruct (spkrIsOn s); cbn; [reflexivity|].
  destruct (currentVolume s =? MIN_VOLUME); reflexivity.
Qed.

(** The guards keep [currentVolume++] and [currentVolume--] inside [int]. *)
Lemma volume_steps_stay_in_int (s : Session) :
  - 2 ^ 31 <= currentVolume s < 2 ^ 31 ->
  - 2 ^ 31 <= currentVolume (final (inc s)) < 2 ^ 31 /\
  - 2 ^ 31 <= currentVolume (final (dec s)) < 2 ^ 31.
Proof.
  intros H. rewrite incrementVolume_final, decrementVolume_final. cbn.
  unfold MAX_VOLUME.
  destruct (Z.ltb_spec (currentVolume s) 21);
    destruct (Z.gtb_spec (currentVolume s) 0); lia.
Qed.

Lemma times_incrementVolume (n : nat) (s : Session) :
  currentVolume s <= MAX_VOLUME ->
  currentVolume (final (times n inc s)) =
  Z.min MAX_VOLUME (currentVolume s + Z.of_nat n).
Proof.
  revert s. induction n as [|n IH]; intros s Hs.
  - cbn. lia.
  - cbn [times]. rewrite final_bind, IH.
    + rewrite incrementVolume_final. cbn.
      destruct (Z.ltb_spec (currentVolume s) MAX_VOLUME); lia.
    + rewrite incrementVolume_final. cbn.
      destruct (Z.ltb_spec (currentVolume s) MAX_VOLUME); lia.
Qed.

Lemma times_decrementVolume (n : nat) (s : Session) :
  0 <= currentVolume s ->
  currentVolume (final (times n dec s)) =
  Z.max 0 (currentVolume s - Z.of_nat n).
Proof.
  revert s. induction n as [|n IH]; intros s Hs.
  - cbn. lia.
  - cbn [times]. rewrite final_bind, IH.
    + rewrite decrementVolume_final. cbn.
      destruct (Z.gtb_spec (currentVolume s) 0); lia.
    + rewrite decrementVolume_final. cbn.
      destruct (Z.gtb_spec (currentVolume s) 0); lia.
Qed.

Lemma volume_in_range_preserved (s : Session) :
  volume_in_range s ->
  volume_in_range (final (inc s)) /\
  volume_in_range (final (dec s)) /\
  volume_in_range (final (tog s)).
Proof.
  unfold volume_in_range. intros H.
  rewrite incrementVolume_final, decrementVolume_final, toggleSpeaker_final.
  unfold MIN_VOLUME, MAX_VOLUME, DEFAULT_VOLUME in *.
  destruct (Z.ltb_spec (currentVolume s) 21);
    destruct (Z.gtb_spec (currentVolume s) 0);
    destruct (Z.eqb_spec (currentVolume s) 0);
    destruct (spkrIsOn s); cbn; lia.
Qed.

End VolumeFacts.

(** ** The dispatcher of [main.cpp] *)

Lemma main_doMenu_loop_find (k : ascii) (items : list Main.MenuItem) :
  Main.doMenu_loop k items =
  match find (fun it => Ascii.eqb k (Main.key it)) items with
  | Some it => Main.call (Main.action it) (Main.arg it)
  | None => ret tt
  end.
Proof.
  induction items as [|it rest IH]; cbn; [reflexivity|].
  destruct (Ascii.eqb k (Main.key it)); [reflexivity | exact IH].
Qed.

Lemma main_find_none_iff (k : ascii) :
  Main.first_match k = None <-> existsb (Ascii.eqb k) (keys_of main_cpp) = false.
Proof.
  unfold Main.first_match, keys_of. generalize Main.menu as items.
  induction items as [|it rest IH]; cbn; [tauto|].
  destruct (Ascii.eqb k (Main.key it)); cbn; [split; discriminate | exact IH].
Qed.

(** No action of [main.cpp] writes [currentStation] or [currentUrl]. *)
Lemma main_call_keeps_selection (a : Main.Action) (x : string) (s : Session) :
  currentStation (final (Main.call a x s)) = currentStation s /\
  currentUrl (final (Main.call a x s)) = currentUrl s.
Proof.
  destruct a; cbn [Main.call]; try (split; reflexivity).
  - unfold Main.incrementVolume. rewrite incrementVolume_final. split; reflexivity.
  - unfold Main.decrementVolume. rewrite decrementVolume_final. split; reflexivity.
  - unfold Main.toggleSpeaker. rewrite toggleSpeaker_final.
    destruct (spkrIsOn s); split; reflexivity.
Qed.

Lemma main_doMenu_keeps_selection (k : ascii) (s : Session) :
  currentStation (final (Main.doMenu k s)) = currentStation s /\
  currentUrl (final (Main.doMenu k s)) = currentUrl s.
Proof.
  unfold Main.doMenu. rewrite !final_bind. cbn [emit final fst snd VolumeController.CLEAR_LINE].
  rewrite main_doMenu_loop_find.
  destruct (find _ Main.menu) as [it|]; [apply main_call_keeps_selection | split; reflexivity].
Qed.

Lemma main_doMenu_final (k : ascii) (s : Session) :
  final (Main.doMenu k s) =
  match Main.first_match k with
  | Some it => final (Main.call (Main.action it) (Main.arg it) s)
  | None => s
  end.
Proof.
  unfold Main.doMenu, Main.first_match. rewrite !final_bind.
  cbn [emit final fst snd VolumeController.CLEAR_LINE].
  rewrite main_doMenu_loop_find. destruct (find _ Main.menu); reflexivity.
Qed.

Lemma main_doMenu_trace (k : ascii) (s : Session) :
  trace (Main.doMenu k s) =
  Serial_read k :: Serial_print Main.CLEAR_LINE_text ::
  match Main.first_match k with
  | Some it => trace (Main.call (Main.action it) (Main.arg it) s)
  | None => []
  end.
Proof.
  unfold Main.doMenu, Main.first_match. rewrite !trace_bind.
  cbn [emit final trace fst snd VolumeController.CLEAR_LINE app].
  rewrite main_doMenu_loop_find. destruct (find _ Main.menu); reflexivity.
Qed.


(** ** The dispatcher of [esp32InternetRadio.cpp] *)

Lemma esp_doMenu_loop_find (k : ascii) (items : list Esp32InternetRadio.Radiostation) (i : Z) :
  Esp32InternetRadio.doMenu_loop k i items =
  match Esp32InternetRadio.first_match_from k i items with
  | Some j => Esp32InternetRadio.doMenu_switch k j
  | None => ret tt
  end.
Proof.
  revert i. induction items as [|st rest IH]; intros i; cbn; [reflexivity|].
  destruct (Ascii.eqb k (Esp32InternetRadio.key st)); [reflexivity | apply IH].
Qed.

Lemma esp_find_none_iff (k : ascii) :
  Esp32InternetRadio.first_match k = None <->
  existsb (Ascii.eqb k) (keys_of esp32InternetRadio_cpp) = false.
Proof.
  unfold Esp32InternetRadio.first_match, keys_of.
  generalize 0. generalize Esp32InternetRadio.station as items.
  induction items as [|st rest IH]; intros i; cbn; [tauto|].
  destruct (Ascii.eqb k (Esp32InternetRadio.key st)); cbn;
    [split; discriminate | apply IH].
Qed.

Lemma esp_doMenu_final (k : ascii) (s : Session) :
  final (Esp32InternetRadio.doMenu k s) =
  match Esp32InternetRadio.first_match k with
  | Some i => final (Esp32InternetRadio.doMenu_switch k i s)
  | None => s
  end.
Proof.
  unfold Esp32InternetRadio.doMenu, Esp32InternetRadio.first_match.
  rewrite !final_bind. cbn [emit final fst snd VolumeController.CLEAR_LINE].
  rewrite esp_doMenu_loop_find.
  destruct (Esp32InternetRadio.first_match_from _ _ _); reflexivity.
Qed.

Lemma esp_doMenu_trace (k : ascii) (s : Session) :
  trace (Esp32InternetRadio.doMenu k s) =
  Serial_read k :: Serial_print Esp32InternetRadio.CLEAR_LINE_text ::
  match Esp32InternetRadio.first_match k with
  | Some i => trace (Esp32InternetRadio.doMenu_switch k i s)
  | None => []
  end.
Proof.
  unfold Esp32InternetRadio.doMenu, Esp32InternetRadio.first_match.
  rewrite !trace_bind.
  cbn [emit final trace fst snd VolumeController.CLEAR_LINE app].
  rewrite esp_doMenu_loop_find.
  destruct (Esp32InternetRadio.first_match_from _ _ _); reflexivity.
Qed.

(** The stations are the first 24 entries of either table. *)
Lemma stations_are_first_24 :
  map Main.action (firstn 24 Main.menu) = repeat Main.fn_playRadio 24 /\
  ~ In Main.fn_playRadio (map Main.action (skipn 24 Main.menu)) /\
  forallb (fun st => negb (Esp32InternetRadio.has_case (Esp32InternetRadio.key st)))
          (firstn 24 Esp32InternetRadio.station) = true /\
  forallb (fun st => Esp32InternetRadio.has_case (Esp32InternetRadio.key st))
          (skipn 24 Esp32InternetRadio.station) = true.
Proof.
  repeat split; try reflexivity.
  cbn. intros H. repeat (destruct H as [H|H]; [discriminate|]). exact H.
Qed.

(** Selecting a station in [esp32InternetRadio.cpp] records the selection
    and starts the stream. *)
Lemma esp_station_selected (n : nat) (s : Session) :
  (n < 24)%nat ->
  let st := Esp32InternetRadio.station_at (Z.of_nat n) in
  let r := Esp32InternetRadio.doMenu (Esp32InternetRadio.key st) s in
  final r = mkSession (Z.of_nat n) (Esp32InternetRadio.url st)
                      (currentVolume s) (spkrIsOn s) /\
  engine_commands r = [audio_connecttohost (Esp32InternetRadio.url st)].
Proof.
  intros Hn.
  do 24 (destruct n as [|n]; [split; reflexivity|]). lia.
Qed.

(** Selecting a station in [main.cpp] starts the stream. *)
Lemma main_station_played (n : nat) (s : Session) :
  (n < 24)%nat ->
  let it := Main.menu_at (Z.of_nat n) in
  let r := Main.doMenu (Main.key it) s in
  final r = s /\
  engine_commands r = [audio_connecttohost (Main.arg it)].
Proof.
  intros Hn.
  do 24 (destruct n as [|n]; [split; reflexivity|]). lia.
Qed.

(** ** The selection is an index of the table *)

Lemma esp_first_match_from_bound (k : ascii) (items : list Esp32InternetRadio.Radiostation)
      (i j : Z) :
  Esp32InternetRadio.first_match_from k i items = Some j ->
  i <= j < i + Z.of_nat (List.length items).
Proof.
  revert i. induction items as [|st rest IH]; intros i; cbn [Esp32InternetRadio.first_match_from];
    [discriminate|].
  destruct (Ascii.eqb k (Esp32InternetRadio.key st)).
  - intros [= <-]. cbn [List.length]. lia.
  - intros H. apply IH in H. cbn [List.length]. lia.
Qed.

Lemma esp_switch_currentStation (k : ascii) (i : Z) (s : Session) :
  currentStation (final (Esp32InternetRadio.doMenu_switch k i s)) = currentStation s \/
  currentStation (final (Esp32InternetRadio.doMenu_switch k i s)) = i.
Proof.
  unfold Esp32InternetRadio.doMenu_switch.
  destruct (Ascii.eqb k "S"); [now left|].
  destruct (Ascii.eqb k "C"); [now left|].
  destruct (Ascii.eqb k "T");
    [left; unfold Esp32InternetRadio.toggleSpeaker; rewrite toggleSpeaker_final;
     now destruct (spkrIsOn s)|].
  destruct (Ascii.eqb k "!"); [now left|].
  destruct (Ascii.eqb k "."); [now left|].
  destruct (Ascii.eqb k ","); [now left|].
  destruct (Ascii.eqb k "+");
    [left; unfold Esp32InternetRadio.incrementVolume;
     now rewrite incrementVolume_final|].
  destruct (Ascii.eqb k "-");
    [left; unfold Esp32InternetRadio.decrementVolume;
     now rewrite decrementVolume_final|].
  now right.
Qed.

Lemma doMenu_currentStation_in_range (sk : Sketch) (k : ascii) (s : Session) :
  currentStation_in_range sk s ->
  currentStation_in_range sk (final (doMenu_of sk k s)).
Proof.
  unfold currentStation_in_range. intros H. destruct sk; cbn [doMenu_of nbr_of] in *.
  - now rewrite (proj1 (main_doMenu_keeps_selection k s)).
  - rewrite esp_doMenu_final.
    destruct (Esp32InternetRadio.first_match k) as [i|] eqn:Hfm; [|exact H].
    apply esp_first_match_from_bound in Hfm.
    destruct (esp_switch_currentStation k i s) as [-> | ->]; [exact H|].
    unfold Esp32InternetRadio.nbrRadiostations. lia.
Qed.

(** ** Station selection *)

(** C1, evaluated on [main.cpp] at the key ['0'] from the initial globals.
    The entry of ['0'] is at position 0 of the catalog and its action is
    [playRadio]; the dispatcher issues the one [connecttohost] call with the
    entry's argument, but [currentStation] stays 5 and [currentUrl] stays the
    URL of "Swiss Classic": [playRadio] does not record the selection, and
    ['C'] then still reports "Swiss Classic" as the current station.  The
    dispatcher of [esp32InternetRadio.cpp] does record it, on the same key. *)
Theorem C1_main_selection_not_recorded :
  let r := Main.doMenu "0" Main.init in
  nth_error (keys_of main_cpp) 0 = Some "0"%char /\
  Main.action (Main.menu_at 0) = Main.fn_playRadio /\
  engine_commands r = [audio_connecttohost (Main.arg (Main.menu_at 0))] /\
  currentStation (final r) = 5 /\
  currentUrl (final r) = Main.arg (Main.menu_at 5) /\
  Main.txt (Main.menu_at (currentStation (final r))) = "Swiss Classic" /\
  skipn 3 (trace (Main.doMenu "C" (final r))) =
    [Serial_print
       "Current Station: Swiss Classic --> http://stream.srg-ssr.ch/m/rsc_de/mp3_128"] /\
  currentStation (final (Esp32InternetRadio.doMenu "0" Esp32InternetRadio.init)) = 0.
Proof. repeat split. Qed.

(** ** Unknown keys *)

(** C3: a character that is the symbol of no catalog entry leaves all the
    globals ([currentStation], [currentUrl], [currentVolume], the speaker
    flag) as they were and makes no call on the engine, in either sketch. *)
Theorem C3_unknown_key_ignored (sk : Sketch) (k : ascii) (s : Session)
  (Hk : existsb (Ascii.eqb k) (keys_of sk) = false) :
  final (doMenu_of sk k s) = s /\
  filter is_engine (trace (doMenu_of sk k s)) = [].
Proof.
  destruct sk; cbn [doMenu_of].
  - apply main_find_none_iff in Hk.
    rewrite main_doMenu_final, main_doMenu_trace, Hk. split; reflexivity.
  - apply esp_find_none_iff in Hk.
    rewrite esp_doMenu_final, esp_doMenu_trace, Hk. split; reflexivity.
Qed.

Lemma C3_unknown_key_ignored_witness :
  (final (doMenu_of main_cpp "x" Main.init) = Main.init /\
   filter is_engine (trace (doMenu_of main_cpp "x" Main.init)) = []) /\
  (final (doMenu_of esp32InternetRadio_cpp "t" Esp32InternetRadio.init)
     = Esp32InternetRadio.init /\
   filter is_engine
     (trace (doMenu_of esp32InternetRadio_cpp "t" Esp32InternetRadio.init)) = []).
Proof.
  split.
  - apply (C3_unknown_key_ignored main_cpp "x" Main.init). reflexivity.
  - apply (C3_unknown_key_ignored esp32InternetRadio_cpp "t"
             Esp32InternetRadio.init). reflexivity.
Defined.

(** ** Speaker toggle and volume *)

(** C4: two calls of [toggleSpeaker] in a row bring the speaker flag back to
    what it was and leave the volume level as it was, except for a level of
    0, which the call that switches the speaker on replaces by
    [DEFAULT_VOLUME] = 10.  The station selection is untouched. *)
Theorem C4_toggleSpeaker_twice (sk : Sketch) (s : Session) :
  let s2 := final (toggleSpeaker_of sk (final (toggleSpeaker_of sk s))) in
  spkrIsOn s2 = spkrIsOn s /\
  currentVolume s2 =
    (if currentVolume s =? 0 then DEFAULT_VOLUME else currentVolume s) /\
  DEFAULT_VOLUME = 10 /\
  currentStation s2 = currentStation s /\
  currentUrl s2 = currentUrl s.
Proof.
  destruct sk; cbn [toggleSpeaker_of];
    unfold Main.toggleSpeaker, Esp32InternetRadio.toggleSpeaker;
    rewrite !toggleSpeaker_final; unfold MIN_VOLUME;
    destruct (spkrIsOn s) eqn:Hon; cbn; rewrite ?Hon; cbn;
    destruct (currentVolume s =? 0); repeat split; reflexivity.
Qed.

(** Off at level 5 and on again restores 5; off at level 0 and on again
    gives 10; with the speaker on, the engine gets the stored level back. *)
Example toggleSpeaker_twice_at_5_and_0 :
  let off_on (v : Z) :=
    Main.toggleSpeaker ""
      (final (Main.toggleSpeaker "" (set_currentVolume v Main.init))) in
  currentVolume (final (off_on 5)) = 5 /\
  currentVolume (final (off_on 0)) = 10 /\
  engine_commands (off_on 5) = [audio_setVolume 5] /\
  engine_commands (off_on 0) = [audio_setVolume 10] /\
  engine_commands (Main.toggleSpeaker "" Main.init) = [audio_setVolume 0].
Proof. repeat split. Qed.

(** Enough calls of [decrementVolume] end at 0. *)
Example decrementVolume_reaches_floor :
  currentVolume
    (final (times 30 (decrementVolume_of esp32InternetRadio_cpp)
                  Esp32InternetRadio.init)) = 0.
Proof.
  unfold decrementVolume_of, Esp32InternetRadio.decrementVolume.
  rewrite times_decrementVolume; reflexivity || (cbn; discriminate).
Qed.

(** C5: from a level in [0, MAX_VOLUME], [MAX_VOLUME + k] calls of
    [incrementVolume] end at [MAX_VOLUME], for every [k >= 0]. *)
Theorem C5_incrementVolume_clamps (sk : Sketch) (s : Session) (k : nat)
  (Hs : 0 <= currentVolume s <= MAX_VOLUME) :
  currentVolume
    (final (times (Z.to_nat MAX_VOLUME + k) (incrementVolume_of sk) s))
  = MAX_VOLUME.
Proof.
  destruct sk; cbn [incrementVolume_of];
    unfold Main.incrementVolume, Esp32InternetRadio.incrementVolume;
    rewrite times_incrementVolume by lia;
    unfold MAX_VOLUME in *; lia.
Qed.

Lemma C5_incrementVolume_clamps_witness :
  currentVolume
    (final (times (Z.to_nat MAX_VOLUME + 3) (incrementVolume_of main_cpp) Main.init))
  = MAX_VOLUME.
Proof.
  apply (C5_incrementVolume_clamps main_cpp Main.init 3).
  cbn. unfold MAX_VOLUME, DEFAULT_VOLUME. lia.
Defined.

(** C9: [incrementVolume] and [decrementVolume] call [audio.setVolume]
    exactly when they change [currentVolume], and then once, with the new
    level; at the ceiling and at the floor they make no call on the engine. *)
Theorem C9_setVolume_iff_level_changed (sk : Sketch) (s : Session) :
  let v := currentVolume s in
  let up := incrementVolume_of sk s in
  let down := decrementVolume_of sk s in
  existsb is_setVolume (trace up) = negb (currentVolume (final up) =? v) /\
  existsb is_setVolume (trace down) = negb (currentVolume (final down) =? v) /\
  filter is_engine (trace up) =
    (if v <? MAX_VOLUME then [audio_setVolume (currentVolume (final up))] else []) /\
  filter is_engine (trace down) =
    (if v >? 0 then [audio_setVolume (currentVolume (final down))] else []) /\
  filter is_engine
    (trace (incrementVolume_of sk (set_currentVolume MAX_VOLUME s))) = [] /\
  filter is_engine
    (trace (decrementVolume_of sk (set_currentVolume 0 s))) = [].
Proof.
  destruct sk; cbn [incrementVolume_of decrementVolume_of];
    unfold Main.incrementVolume, Main.decrementVolume,
           Esp32InternetRadio.incrementVolume, Esp32InternetRadio.decrementVolume;
    cbv zeta;
    rewrite !incrementVolume_final, !decrementVolume_final,
            !incrementVolume_trace, !decrementVolume_trace;
    cbn [currentVolume set_currentVolume];
    change (MAX_VOLUME <? MAX_VOLUME) with false;
    change (0 >? 0) with false;
    destruct (Z.ltb_spec (currentVolume s) MAX_VOLUME);
    destruct (Z.gtb_spec (currentVolume s) 0); cbn;
    repeat split; try reflexivity;
    try (symmetry; apply negb_true_iff, Z.eqb_neq; lia);
    try (symmetry; apply negb_false_iff, Z.eqb_refl).
Qed.

(** ** The volume range *)

Lemma main_call_volume_in_range (a : Main.Action) (x : string) (s : Session) :
  volume_in_range s -> volume_in_range (final (Main.call a x s)).
Proof.
  intros H.
  destruct a; cbn [Main.call]; try exact H;
    apply (volume_in_range_preserved Main.CLEAR_LINE_text s H).
Qed.

Lemma main_doMenu_volume_in_range (k : ascii) (s : Session) :
  volume_in_range s -> volume_in_range (final (Main.doMenu k s)).
Proof.
  intros H. rewrite main_doMenu_final.
  destruct (Main.first_match k); [now apply main_call_volume_in_range | exact H].
Qed.

Lemma esp_switch_volume_in_range (k : ascii) (i : Z) (s : Session) :
  volume_in_range s ->
  volume_in_range (final (Esp32InternetRadio.doMenu_switch k i s)).
Proof.
  intros H. unfold Esp32InternetRadio.doMenu_switch.
  repeat match goal with
         | |- context [if Ascii.eqb k ?c then _ else _] =>
             destruct (Ascii.eqb k c)
         end;
    try exact H;
    apply (volume_in_range_preserved Esp32InternetRadio.CLEAR_LINE_text s H).
Qed.

Lemma esp_doMenu_volume_in_range (k : ascii) (s : Session) :
  volume_in_range s -> volume_in_range (final (Esp32InternetRadio.doMenu k s)).
Proof.
  intros H. rewrite esp_doMenu_final.
  destruct (Esp32InternetRadio.first_match k);
    [now apply esp_switch_volume_in_range | exact H].
Qed.

Lemma doMenu_volume_in_range (sk : Sketch) (k : ascii) (s : Session) :
  volume_in_range s -> volume_in_range (final (doMenu_of sk k s)).
Proof.
  destruct sk; [apply main_doMenu_volume_in_range | apply esp_doMenu_volume_in_range].
Qed.

(** [loop()] changes the globals only through [doMenu]. *)
Lemma loop_session (showMenu : M unit) (doMenu : ascii -> M unit)
      (st : LoopStatics * Session) (i : Input) :
  (forall s, final (showMenu s) = s) ->
  snd (fst (ControlLoop.loop showMenu doMenu st i)) =
  match serial_rx i with
  | Some k => final (doMenu k (snd st))
  | None => snd st
  end.
Proof.
  intros Hshow. unfold ControlLoop.loop. cbn [fst snd].
  set (w := if done (fst st) then _ else _).
  destruct (fst w); [rewrite Hshow|]; destruct (serial_rx i); reflexivity.
Qed.

Lemma step_volume_in_range (sk : Sketch) (m : Machine) (i : Input) :
  volume_in_range (session m) ->
  volume_in_range (session (fst (step_of sk m i))).
Proof.
  intros H. destruct sk; cbn [step_of];
    unfold Main.step, Esp32InternetRadio.step;
    destruct (pc m); cbn [fst session]; try exact H.
  - destruct (wifi_ok i); exact H.
  - unfold Main.loop. rewrite loop_session by reflexivity. cbn [snd].
    destruct (serial_rx i); [now apply main_doMenu_volume_in_range | exact H].
  - destruct (wifi_ok i); exact H.
  - unfold Esp32InternetRadio.loop. rewrite loop_session by reflexivity. cbn [snd].
    destruct (serial_rx i); [now apply esp_doMenu_volume_in_range | exact H].
Qed.

Lemma run_volume_in_range (sk : Sketch) (inputs : list Input) (m : Machine) :
  volume_in_range (session m) ->
  volume_in_range (session (fst (run (step_of sk) m inputs))).
Proof.
  revert m. induction inputs as [|i rest IH]; intros m H; cbn; [exact H|].
  apply IH. now apply step_volume_in_range.
Qed.

(** In every state a sketch reaches from power-on, [currentStation] is an
    index of its table. *)
Lemma step_currentStation_in_range (sk : Sketch) (m : Machine) (i : Input) :
  currentStation_in_range sk (session m) ->
  currentStation_in_range sk (session (fst (step_of sk m i))).
Proof.
  intros H. destruct sk; cbn [step_of];
    unfold Main.step, Esp32InternetRadio.step;
    destruct (pc m); cbn [fst session]; try exact H.
  - destruct (wifi_ok i); exact H.
  - unfold Main.loop. rewrite loop_session by reflexivity. cbn [snd].
    destruct (serial_rx i);
      [exact (doMenu_currentStation_in_range main_cpp _ _ H) | exact H].
  - destruct (wifi_ok i); exact H.
  - unfold Esp32InternetRadio.loop. rewrite loop_session by reflexivity. cbn [snd].
    destruct (serial_rx i);
      [exact (doMenu_currentStation_in_range esp32InternetRadio_cpp _ _ H) | exact H].
Qed.

Lemma run_currentStation_in_range (sk : Sketch) (inputs : list Input) :
  currentStation_in_range sk
    (session (fst (run (step_of sk) (boot_of sk) inputs))).
Proof.
  assert (H0 : currentStation_in_range sk (session (boot_of sk)))
    by (destruct sk; cbv; split; congruence).
  revert H0. generalize (boot_of sk) as m.
  induction inputs as [|i rest IH]; intros m H; cbn [run fst]; [exact H|].
  apply IH. now apply step_currentStation_in_range.
Qed.

Lemma init_volume_in_range (sk : Sketch) : volume_in_range (init_of sk).
Proof. destruct sk; cbv; split; discriminate. Qed.

(** C6: the volume level is in [0, MAX_VOLUME] at start-up, and every action
    of the dispatcher keeps it there: [incrementVolume], [decrementVolume]
    (which never goes below 0), [toggleSpeaker], and whatever [doMenu] does on
    any key; so it is there after every step of either sketch, and in every
    state a sketch reaches from power-on. *)
Theorem C6_volume_in_range_invariant
  (sk : Sketch) (s : Session) (k : ascii) (m : Machine) (i : Input)
  (Hs : volume_in_range s) (Hm : volume_in_range (session m)) :
  volume_in_range (init_of sk) /\
  volume_in_range (final (incrementVolume_of sk s)) /\
  volume_in_range (final (decrementVolume_of sk s)) /\
  0 <= currentVolume (final (decrementVolume_of sk s)) /\
  volume_in_range (final (toggleSpeaker_of sk s)) /\
  volume_in_range (final (doMenu_of sk k s)) /\
  volume_in_range (session (fst (step_of sk m i))) /\
  (forall inputs,
      volume_in_range (session (fst (run (step_of sk) (boot_of sk) inputs)))).
Proof.
  pose proof (volume_in_range_preserved Main.CLEAR_LINE_text s Hs)
    as (Hi1 & Hd1 & Ht1).
  pose proof (volume_in_range_preserved Esp32InternetRadio.CLEAR_LINE_text s Hs)
    as (Hi2 & Hd2 & Ht2).
  split; [apply init_volume_in_range|].
  split; [destruct sk; [exact Hi1 | exact Hi2]|].
  split; [destruct sk; [exact Hd1 | exact Hd2]|].
  split; [destruct sk; [apply Hd1 | apply Hd2]|].
  split; [destruct sk; [exact Ht1 | exact Ht2]|].
  split; [now apply doMenu_volume_in_range|].
  split; [now apply step_volume_in_range|].
  intros inputs. apply run_volume_in_range.
  destruct sk; apply (init_volume_in_range main_cpp).
Qed.

Lemma C6_volume_in_range_invariant_witness :
  volume_in_range (final (decrementVolume_of main_cpp
                            (set_currentVolume 0 Main.init))) /\
  volume_in_range (final (incrementVolume_of esp32InternetRadio_cpp
                            (set_currentVolume 21 Esp32InternetRadio.init))).
Proof.
  split.
  - apply (C6_volume_in_range_invariant main_cpp
             (set_currentVolume 0 Main.init) "-" Main.boot
             (mkInput true 0 0 0 None)).
    + unfold volume_in_range. simpl. unfold MIN_VOLUME, MAX_VOLUME. lia.
    + unfold volume_in_range. simpl.
      unfold MIN_VOLUME, MAX_VOLUME, DEFAULT_VOLUME. lia.
  - apply (C6_volume_in_range_invariant esp32InternetRadio_cpp
             (set_currentVolume 21 Esp32InternetRadio.init) "+"
             Esp32InternetRadio.boot (mkInput true 0 0 0 None)).
    + unfold volume_in_range. simpl. unfold MIN_VOLUME, MAX_VOLUME. lia.
    + unfold volume_in_range. simpl.
      unfold MIN_VOLUME, MAX_VOLUME, DEFAULT_VOLUME. lia.
Defined.

(** ** The side effects of one dispatch *)

Lemma mutated_set_currentVolume {A} (s : Session) (r : A * Session * Trace) (v : Z) :
  final r = set_currentVolume v s ->
  mutated s r = negb (currentVolume s =? v).
Proof.
  intros H. unfold mutated, Session_eqb. rewrite H. cbn.
  now rewrite Z.eqb_refl, String.eqb_refl, Bool.eqb_reflx, andb_true_r.
Qed.

Lemma mutated_same {A} (s : Session) (r : A * Session * Trace) :
  final r = s -> mutated s r = false.
Proof. intros H. unfold mutated. now rewrite H, Session_eqb_refl. Qed.

Lemma mutated_toggle {A} (s : Session) (r : A * Session * Trace) (v : Z) :
  spkrIsOn (final r) = negb (spkrIsOn s) -> mutated s r = true.
Proof.
  intros H. unfold mutated, Session_eqb. rewrite H.
  destruct (spkrIsOn s); cbn; now rewrite andb_false_r.
Qed.

Lemma incrementVolume_profile (cl : string) (s : Session) :
  profile s (VolumeController.incrementVolume cl s) =
  (currentVolume s <? MAX_VOLUME,
   Nat.b2n (currentVolume s <? MAX_VOLUME), 2%nat).
Proof.
  unfold profile, engine_commands, renders.
  rewrite (mutated_set_currentVolume s _ _ (incrementVolume_final cl s)).
  rewrite incrementVolume_trace.
  destruct (Z.ltb_spec (currentVolume s) MAX_VOLUME); cbn.
  - replace (currentVolume s =? currentVolume s + 1) with false; [reflexivity|].
    symmetry; apply Z.eqb_neq; lia.
  - now rewrite Z.eqb_refl.
Qed.

Lemma decrementVolume_profile (cl : string) (s : Session) :
  profile s (VolumeController.decrementVolume cl s) =
  (currentVolume s >? 0, Nat.b2n (currentVolume s >? 0), 2%nat).
Proof.
  unfold profile, engine_commands, renders.
  rewrite (mutated_set_currentVolume s _ _ (decrementVolume_final cl s)).
  rewrite decrementVolume_trace.
  destruct (Z.gtb_spec (currentVolume s) 0); cbn.
  - replace (currentVolume s =? currentVolume s - 1) with false; [reflexivity|].
    symmetry; apply Z.eqb_neq; lia.
  - now rewrite Z.eqb_refl.
Qed.

Lemma toggleSpeaker_profile (cl : string) (s : Session) :
  profile s (VolumeController.toggleSpeaker cl s) = (true, 1%nat, 2%nat).
Proof.
  unfold profile, engine_commands, renders.
  rewrite (mutated_toggle s _ 0).
  - rewrite toggleSpeaker_trace. destruct (spkrIsOn s); reflexivity.
  - rewrite toggleSpeaker_final. destruct (spkrIsOn s); reflexivity.
Qed.

Lemma main_call_profile (a : Main.Action) (x : string) (s : Session) :
  profile s (Main.call a x s) = main_action_profile a s.
Proof.
  destruct a; cbn [Main.call main_action_profile];
    [ | | | | | exact (incrementVolume_profile _ s)
              | exact (decrementVolume_profile _ s)
              | exact (toggleSpeaker_profile _ s) | | ];
    unfold profile; rewrite mutated_same by reflexivity; reflexivity.
Qed.

Lemma esp_switch_profile_ok (k : ascii) (i : Z) (s : Session) :
  profile s (Esp32InternetRadio.doMenu_switch k i s) = esp_switch_profile k i s.
Proof.
  unfold Esp32InternetRadio.doMenu_switch, esp_switch_profile.
  destruct (Ascii.eqb k "S");
    [unfold profile; rewrite mutated_same by reflexivity; reflexivity|].
  destruct (Ascii.eqb k "C");
    [unfold profile; rewrite mutated_same by reflexivity; reflexivity|].
  destruct (Ascii.eqb k "T"); [exact (toggleSpeaker_profile _ s)|].
  destruct (Ascii.eqb k "!");
    [unfold profile; rewrite mutated_same by reflexivity; reflexivity|].
  destruct (Ascii.eqb k ".");
    [unfold profile; rewrite mutated_same by reflexivity; reflexivity|].
  destruct (Ascii.eqb k ",");
    [unfold profile; rewrite mutated_same by reflexivity; reflexivity|].
  destruct (Ascii.eqb k "+"); [exact (incrementVolume_profile _ s)|].
  destruct (Ascii.eqb k "-"); [exact (decrementVolume_profile _ s)|].
  unfold profile, mutated, Session_eqb. cbn.
  now rewrite Z.eqb_refl, Bool.eqb_reflx, !andb_true_r.
Qed.

Lemma dispatch_profile_ok (sk : Sketch) (k : ascii) (s : Session) :
  profile s (doMenu_of sk k s) = dispatch_profile sk k s.
Proof.
  destruct sk; cbn [doMenu_of dispatch_profile].
  - unfold profile, mutated, engine_commands, renders.
    rewrite main_doMenu_final, main_doMenu_trace.
    destruct (Main.first_match k) as [it|].
    + rewrite <- main_call_profile with (x := Main.arg it). reflexivity.
    + now rewrite Session_eqb_refl.
  - unfold profile, mutated, engine_commands, renders.
    rewrite esp_doMenu_final, esp_doMenu_trace.
    destruct (Esp32InternetRadio.first_match k) as [i|].
    + rewrite <- esp_switch_profile_ok. reflexivity.
    + now rewrite Session_eqb_refl.
Qed.

Lemma categories_of_profile {A} (s : Session) (r : A * Session * Trace) :
  categories s r =
  (Nat.b2n (fst (fst (profile s r))) +
   Nat.b2n (negb (Nat.eqb (snd (fst (profile s r))) 0)) +
   Nat.b2n (negb (Nat.eqb (snd (profile s r)) 0)))%nat.
Proof.
  unfold categories, profile, engine_commands, renders. cbn [fst snd].
  assert (H : forall f (t : Trace),
             existsb f t = negb (Nat.eqb (List.length (filter f t)) 0)).
  { intros f t. induction t as [|e t IH]; cbn; [reflexivity|].
    destruct (f e); cbn; [reflexivity | exact IH]. }
  now rewrite !H.
Qed.

(** C2 as stated fails: on ['+'] below the ceiling, one dispatch changes
    [currentVolume], calls [audio.setVolume] and writes the new level. *)
Lemma C2_counterexample_increment :
  existsb (Ascii.eqb "+") (keys_of main_cpp) = true /\
  categories Main.init (doMenu_of main_cpp "+" Main.init) = 3%nat /\
  categories Main.init (Main.incrementVolume "" Main.init) = 3%nat /\
  categories Esp32InternetRadio.init
    (doMenu_of esp32InternetRadio_cpp "+" Esp32InternetRadio.init) = 3%nat /\
  ~ (forall sk k s,
        existsb (Ascii.eqb k) (keys_of sk) = true ->
        categories s (doMenu_of sk k s) = 1%nat).
Proof.
  repeat split; try reflexivity.
  intros H. specialize (H main_cpp "+"%char Main.init eq_refl). discriminate H.
Qed.

Lemma main_showMenu_items_run (items : list Main.MenuItem) (s : Session) :
  final (Main.showMenu_items items s) = s /\
  trace (Main.showMenu_items items s) = map main_menu_line items.
Proof.
  induction items as [|it rest [IHf IHt]]; [split; reflexivity|].
  cbn [Main.showMenu_items]. rewrite final_bind, trace_bind.
  cbn [emit final trace fst snd]. rewrite IHf, IHt. split; reflexivity.
Qed.

Lemma esp_showMenu_items_run (items : list Esp32InternetRadio.Radiostation)
      (s : Session) :
  final (Esp32InternetRadio.showMenu_items items s) = s /\
  trace (Esp32InternetRadio.showMenu_items items s) = map esp_menu_line items.
Proof.
  induction items as [|st rest [IHf IHt]]; [split; reflexivity|].
  cbn [Esp32InternetRadio.showMenu_items]. rewrite final_bind, trace_bind.
  cbn [emit final trace fst snd]. rewrite IHf, IHt. split; reflexivity.
Qed.

Lemma volume_outcomes_ok (cl : string) (s : Session) :
  (final (VolumeController.incrementVolume cl s),
   trace (VolumeController.incrementVolume cl s)) = increment_outcome cl s /\
  (final (VolumeController.decrementVolume cl s),
   trace (VolumeController.decrementVolume cl s)) = decrement_outcome cl s /\
  (final (VolumeController.toggleSpeaker cl s),
   trace (VolumeController.toggleSpeaker cl s)) = toggle_outcome cl s.
Proof.
  rewrite incrementVolume_final, decrementVolume_final, toggleSpeaker_final,
          incrementVolume_trace, decrementVolume_trace, toggleSpeaker_trace.
  unfold increment_outcome, decrement_outcome, toggle_outcome, volume_line,
         MIN_VOLUME.
  assert (Hs : set_currentVolume (currentVolume s) s = s)
    by (unfold set_currentVolume; apply session_eta).
  destruct (currentVolume s <? MAX_VOLUME), (currentVolume s >? 0),
           (spkrIsOn s); rewrite ?Hs; repeat split; reflexivity.
Qed.

Lemma main_action_outcome_ok (it : Main.MenuItem) (s : Session) :
  (final (Main.call (Main.action it) (Main.arg it) s),
   trace (Main.call (Main.action it) (Main.arg it) s)) = main_action_outcome it s.
Proof.
  destruct (volume_outcomes_ok Main.CLEAR_LINE_text s) as (Hi & Hd & Ht).
  destruct (main_showMenu_items_run Main.menu s) as [Hf Hm].
  unfold main_action_outcome.
  destruct (Main.action it); cbn [Main.call];
    [ reflexivity | reflexivity | reflexivity | reflexivity | reflexivity
    | exact Hi | exact Hd | exact Ht | reflexivity | ].
  unfold Main.showMenu. rewrite !final_bind, !trace_bind.
  cbn [emit final trace fst snd]. rewrite Hf, Hm. reflexivity.
Qed.

Lemma esp_key_outcome_ok (k : ascii) (i : Z) (s : Session) :
  (final (Esp32InternetRadio.doMenu_switch k i s),
   trace (Esp32InternetRadio.doMenu_switch k i s)) = esp_key_outcome k i s.
Proof.
  destruct (volume_outcomes_ok Esp32InternetRadio.CLEAR_LINE_text s)
    as (Hi & Hd & Ht).
  destruct (esp_showMenu_items_run Esp32InternetRadio.station s) as [Hf Hm].
  unfold Esp32InternetRadio.doMenu_switch, esp_key_outcome.
  destruct (Ascii.eqb k "S").
  { unfold Esp32InternetRadio.showMenu. rewrite !final_bind, !trace_bind.
    cbn [emit final trace fst snd]. rewrite Hf, Hm. reflexivity. }
  destruct (Ascii.eqb k "C"); [reflexivity|].
  destruct (Ascii.eqb k "T"); [exact Ht|].
  destruct (Ascii.eqb k "!"); [reflexivity|].
  destruct (Ascii.eqb k "."); [reflexivity|].
  destruct (Ascii.eqb k ","); [reflexivity|].
  destruct (Ascii.eqb k "+"); [exact Hi|].
  destruct (Ascii.eqb k "-"); [exact Hd|].
  reflexivity.
Qed.

Lemma dispatch_outcome_ok (sk : Sketch) (k : ascii) (s : Session) :
  (final (doMenu_of sk k s), trace (doMenu_of sk k s)) = dispatch_outcome sk k s.
Proof.
  destruct sk; cbn [doMenu_of dispatch_outcome].
  - rewrite main_doMenu_final, main_doMenu_trace.
    destruct (Main.first_match k) as [it|]; [|reflexivity].
    now rewrite <- main_action_outcome_ok.
  - rewrite esp_doMenu_final, esp_doMenu_trace.
    destruct (Esp32InternetRadio.first_match k) as [i|]; [|reflexivity].
    now rewrite <- esp_key_outcome_ok.
Qed.

(** C2, amended: on every key, the globals and the calls [doMenu] ends with
    are those of [dispatch_outcome]: the key is read, [CLEAR_LINE] is written
    first, and on a key of the catalog the action of its entry runs once.
    The effects of that one dispatch may be of several kinds.  A station
    key sends one [connecttohost] with the entry's URL, the file key one
    [connecttoFS], a speech key one [connecttospeech] with its text and
    language, and they write nothing more (in [esp32InternetRadio.cpp] the
    station also becomes [currentStation]/[currentUrl]); ['+'] below the
    ceiling adds one to [currentVolume] and sends [setVolume] with the new
    level, ['-'] above the floor takes one off and sends it, at the bound
    neither, and both clear the line and write the level; ['T'] with the
    speaker on sends [setVolume(0)] and clears the flag, with the speaker off
    puts [DEFAULT_VOLUME] in place of a level of 0, sends [setVolume] with
    the stored level and sets the flag, and writes the new status: all three
    kinds at once; ['C'] and ['S'] only write and change nothing.  So a
    dispatch sends at most one command to the engine, writes at least once,
    and its counts are those of [dispatch_profile]. *)
Theorem C2_dispatch_effects (sk : Sketch) (k : ascii) (s : Session) :
  (final (doMenu_of sk k s), trace (doMenu_of sk k s)) = dispatch_outcome sk k s /\
  profile s (doMenu_of sk k s) = dispatch_profile sk k s /\
  (List.length (engine_commands (doMenu_of sk k s)) <= 1)%nat /\
  (1 <= List.length (renders (doMenu_of sk k s)))%nat /\
  categories s (doMenu_of sk "T" s) = 3%nat.
Proof.
  split; [apply dispatch_outcome_ok|].
  split; [apply dispatch_profile_ok|].
  split; [|split].
  - change (List.length (engine_commands (doMenu_of sk k s)))
      with (snd (fst (profile s (doMenu_of sk k s)))).
    rewrite dispatch_profile_ok.
    destruct sk; cbn [dispatch_profile].
    + destruct (Main.first_match k) as [it|]; [|cbn; lia].
      destruct (Main.action it); cbn;
        try destruct (currentVolume s <? MAX_VOLUME);
        try destruct (currentVolume s >? 0); cbn; lia.
    + destruct (Esp32InternetRadio.first_match k) as [i|]; [|cbn; lia].
      unfold esp_switch_profile.
      repeat match goal with
             | |- context [if Ascii.eqb k ?c then _ else _] =>
                 destruct (Ascii.eqb k c)
             end; cbn;
        try destruct (currentVolume s <? MAX_VOLUME);
        try destruct (currentVolume s >? 0); cbn; lia.
  - change (List.length (renders (doMenu_of sk k s)))
      with (snd (profile s (doMenu_of sk k s))).
    rewrite dispatch_profile_ok.
    destruct sk; cbn [dispatch_profile].
    + destruct (Main.first_match k); cbn; lia.
    + destruct (Esp32InternetRadio.first_match k); cbn; lia.
  - rewrite categories_of_profile, dispatch_profile_ok.
    destruct sk; reflexivity.
Qed.

(** ** Start-up: the connection gates everything *)

Lemma gated_true (t : Trace) : gated true t = true.
Proof. induction t as [|e t IH]; cbn; [reflexivity | exact IH]. Qed.

Lemma gated_app (c : bool) (t1 t2 : Trace) :
  gated c (t1 ++ t2)%list = gated c t1 && gated (c || existsb connected_event t1) t2.
Proof.
  revert c. induction t1 as [|e t1 IH]; intros c; cbn.
  - now rewrite orb_false_r.
  - now rewrite IH, andb_assoc, orb_assoc.
Qed.

Lemma gated_sound (c : bool) (t pre post : Trace) (e : Event) :
  gated c t = true -> t = (pre ++ e :: post)%list ->
  needs_connection e = true ->
  c || existsb connected_event pre = true.
Proof.
  intros Hg -> He. rewrite gated_app in Hg.
  apply andb_prop in Hg as [_ Hg]. cbn in Hg.
  apply andb_prop in Hg as [Hg _]. rewrite He in Hg. cbn in Hg.
  now rewrite orb_false_r in Hg.
Qed.

(** A step taken before [loop] is entered either does nothing that needs
    the connection, or first learns that the network is reachable. *)
Lemma step_gated (sk : Sketch) (m : Machine) (i : Input) (c : bool) :
  (pc m = Looping -> c = true) ->
  gated c (snd (step_of sk m i)) = true /\
  (pc (fst (step_of sk m i)) = Looping ->
   c || existsb connected_event (snd (step_of sk m i)) = true).
Proof.
  intros Hc.
  destruct sk; cbn [step_of]; unfold Main.step, Esp32InternetRadio.step;
    destruct (pc m) eqn:Hpc; cbn [fst snd pc]; rewrite ?Hpc;
    try (rewrite (Hc eq_refl); split; [apply gated_true | reflexivity]);
    try destruct (wifi_ok i); cbn;
    rewrite ?orb_false_r, ?orb_true_r, ?andb_true_r, ?gated_true;
    split; (reflexivity || discriminate).
Qed.

Lemma run_gated (sk : Sketch) (inputs : list Input) (m : Machine) (c : bool) :
  (pc m = Looping -> c = true) ->
  gated c (snd (run (step_of sk) m inputs)) = true.
Proof.
  revert m c. induction inputs as [|i rest IH]; intros m c Hc; cbn [run snd];
    [reflexivity|].
  destruct (step_gated sk m i c Hc) as [H1 H2].
  rewrite gated_app, H1. cbn. apply IH. exact H2.
Qed.

(** Once in the heartbeat loop, [main.cpp] stays there. *)
Lemma main_run_WlanFailed (m : Machine) (inputs : list Input) :
  pc m = WlanFailed ->
  run Main.step m inputs = (m, repeat (heartbeat 3 1 5) (List.length inputs)).
Proof.
  intros Hpc.
  assert (Hstep : forall i, Main.step m i = (m, [heartbeat 3 1 5]))
    by (intros i; unfold Main.step; now rewrite Hpc).
  induction inputs as [|i rest IH]; cbn [run]; [reflexivity|].
  rewrite Hstep. cbn [fst snd]. rewrite IH. reflexivity.
Qed.

(** C7: in every run of either sketch from power-on, a key is read and the
    engine is called only after the network was found reachable; and when
    [initWiFi] fails in [main.cpp], the sketch logs the failure and then does
    nothing but [heartbeat(LED_BUILTIN, 3, 1, 5)], for ever: it never reaches
    [loop], reads no key and calls the engine never. *)
Theorem C7_connection_gates_commands
  (sk : Sketch) (inputs : list Input) (pre post : Trace) (e : Event)
  (Ht : snd (run (step_of sk) (boot_of sk) inputs) = (pre ++ e :: post)%list)
  (He : needs_connection e = true) :
  existsb connected_event pre = true /\
  (forall (i : Input) (rest : list Input),
      run Main.step Main.boot (with_wifi false i :: rest) =
      (mkMachine WlanFailed Main.init statics0,
       [Serial_begin 115200; pinMode_LED_BUILTIN_OUTPUT;
        initWiFi_call Main.ssid Main.password Main.hostname false;
        log_e "==> Connection to WLAN failed"]
       ++ repeat (heartbeat 3 1 5) (List.length rest))%list).
Proof.
  split.
  - apply (gated_sound false _ pre post e) in Ht; [exact Ht | | exact He].
    apply run_gated. destruct sk; discriminate.
  - intros i rest. cbn [run].
    change (fst (Main.step Main.boot (with_wifi false i)))
      with (mkMachine WlanFailed Main.init statics0).
    rewrite main_run_WlanFailed by reflexivity. reflexivity.
Qed.

Lemma C7_connection_gates_commands_witness :
  existsb connected_event
    [Serial_begin 115200; pinMode_LED_BUILTIN_OUTPUT;
     initWiFi_call Main.ssid Main.password Main.hostname true;
     SPIFFS_begin; printNearbyNetworks_call; printConnectionDetails_call;
     audio_setPinout] = true.
Proof.
  apply (C7_connection_gates_commands main_cpp
           [mkInput true 0 0 0 None]
           [Serial_begin 115200; pinMode_LED_BUILTIN_OUTPUT;
            initWiFi_call Main.ssid Main.password Main.hostname true;
            SPIFFS_begin; printNearbyNetworks_call; printConnectionDetails_call;
            audio_setPinout]
           [audio_connecttohost (Main.arg (Main.menu_at 5))]
           (audio_setVolume 10)).
  - reflexivity.
  - reflexivity.
Defined.

(** ** Start-up: the preselected station *)

Lemma run_app {St : Type} (step : St -> Input -> St * Trace)
      (m : St) (l1 l2 : list Input) :
  run step m (l1 ++ l2)%list =
  (fst (run step (fst (run step m l1)) l2),
   (snd (run step m l1) ++ snd (run step (fst (run step m l1)) l2))%list).
Proof.
  revert m. induction l1 as [|i l1 IH]; intros m; cbn [run app fst snd].
  - now destruct (run step m l2).
  - rewrite IH. cbn [fst snd]. now rewrite app_assoc.
Qed.

(** While [WiFi.status()] is not [WL_CONNECTED], [esp32InternetRadio.cpp]
    stays in the [while] of [initWiFi] and only reports that it is trying. *)
Lemma esp_run_polling (m : Machine) (fails : list Input) :
  pc m = WiFiPolling ->
  fst (run Esp32InternetRadio.step m (map (with_wifi false) fails)) = m /\
  filter needs_connection
    (snd (run Esp32InternetRadio.step m (map (with_wifi false) fails))) = [].
Proof.
  intros Hpc.
  assert (Hstep : forall i,
             Esp32InternetRadio.step m (with_wifi false i) =
             (m, [WiFi_status false;
                  Esp32InternetRadio.println "...Connecting to WiFi";
                  delay 1000])).
  { intros i. unfold Esp32InternetRadio.step. rewrite Hpc. cbn.
    destruct m; cbn in *. now rewrite Hpc. }
  induction fails as [|i rest [IH1 IH2]]; cbn [map run fst snd];
    [split; reflexivity|].
  rewrite Hstep. cbn [fst snd]. split; [exact IH1|]. cbn. exact IH2.
Qed.

(** C8: start-up, once the network is reachable, sends the engine the default
    level, [DEFAULT_VOLUME] = 10, and then one request to play the URL of
    the catalog entry at index 5, "Swiss Classic" (key ['5']); these are the
    only commands to the engine during start-up, no key has been read yet,
    and the sketch then enters [loop].  In [esp32InternetRadio.cpp] this is
    so after any number of unsuccessful polls of [WiFi.status()]. *)
Theorem C8_startup_plays_default_station
  (i0 i1 i : Input) (fails : list Input) :
  let start_main := run Main.step Main.boot [with_wifi true i] in
  let start_esp :=
    run Esp32InternetRadio.step Esp32InternetRadio.boot
        (i0 :: map (with_wifi false) fails ++ [with_wifi true i1]) in
  (pc (fst start_main) = Looping /\
   session (fst start_main) = Main.init /\
   filter (fun e => is_engine_command e || is_command_input e) (snd start_main)
   = [audio_setVolume DEFAULT_VOLUME;
      audio_connecttohost (Main.arg (Main.menu_at 5))] /\
   Main.key (Main.menu_at 5) = "5"%char /\
   Main.txt (Main.menu_at 5) = "Swiss Classic") /\
  (pc (fst start_esp) = Looping /\
   session (fst start_esp) = Esp32InternetRadio.init /\
   filter (fun e => is_engine_command e || is_command_input e) (snd start_esp)
   = [audio_setVolume DEFAULT_VOLUME;
      audio_connecttohost
        (Esp32InternetRadio.url (Esp32InternetRadio.station_at 5))] /\
   Esp32InternetRadio.key (Esp32InternetRadio.station_at 5) = "5"%char /\
   Esp32InternetRadio.name (Esp32InternetRadio.station_at 5) = "Swiss Classic") /\
  DEFAULT_VOLUME = 10.
Proof.
  cbv zeta. split; [repeat split | split; [|reflexivity]].
  change (i0 :: map (with_wifi false) fails ++ [with_wifi true i1])%list
    with ([i0] ++ (map (with_wifi false) fails ++ [with_wifi true i1]))%list.
  rewrite run_app.
  set (m1 := fst (run Esp32InternetRadio.step Esp32InternetRadio.boot [i0])).
  assert (Hm1 : pc m1 = WiFiPolling) by reflexivity.
  rewrite run_app.
  destruct (esp_run_polling m1 fails Hm1) as [Hfst Hsnd].
  rewrite Hfst. cbn [fst snd].
  rewrite !filter_app.
  assert (Hno : filter (fun e => is_engine_command e || is_command_input e)
                       (snd (run Esp32InternetRadio.step m1
                                 (map (with_wifi false) fails))) = []).
  { revert Hsnd. generalize (snd (run Esp32InternetRadio.step m1
                                      (map (with_wifi false) fails))).
    intros l. induction l as [|e l IHl]; cbn; [reflexivity|].
    unfold needs_connection at 1.
    destruct e; cbn; try discriminate; exact IHl. }
  rewrite Hno. repeat split.
Qed.

(** ** The menu is shown once by itself *)

Lemma menu_renders_app (t1 t2 : Trace) :
  menu_renders (t1 ++ t2)%list = (menu_renders t1 + menu_renders t2)%nat.
Proof. unfold menu_renders. now rewrite filter_app, length_app. Qed.

Lemma volume_actions_render_no_menu (cl : string) (s : Session) :
  String.eqb cl TITLE = false ->
  menu_renders (trace (VolumeController.incrementVolume cl s)) = 0%nat /\
  menu_renders (trace (VolumeController.decrementVolume cl s)) = 0%nat /\
  menu_renders (trace (VolumeController.toggleSpeaker cl s)) = 0%nat.
Proof.
  intros Hcl.
  rewrite incrementVolume_trace, decrementVolume_trace, toggleSpeaker_trace.
  unfold menu_renders.
  destruct (currentVolume s <? MAX_VOLUME), (currentVolume s >? 0), (spkrIsOn s);
    cbn [app filter is_menu_title]; rewrite Hcl; repeat split; reflexivity.
Qed.

Lemma main_call_menu_renders (a : Main.Action) (x : string) (s : Session) :
  menu_renders (trace (Main.call a x s)) =
  match a with Main.fn_showMenu => 1%nat | _ => 0%nat end.
Proof.
  pose proof (volume_actions_render_no_menu Main.CLEAR_LINE_text s eq_refl)
    as (Hi & Hd & Ht).
  destruct a; cbn [Main.call];
    [ | | | | | exact Hi | exact Hd | exact Ht | | ]; reflexivity.
Qed.

Lemma main_ShowMenu_key (k : ascii) :
  match Main.first_match k with
  | Some it => match Main.action it with
               | Main.fn_showMenu => 1%nat
               | _ => 0%nat
               end
  | None => 0%nat
  end = Nat.b2n (Ascii.eqb k "S").
Proof. destruct k as [[] [] [] [] [] [] [] []]; reflexivity. Qed.

Lemma main_doMenu_menu_renders (k : ascii) (s : Session) :
  menu_renders (trace (Main.doMenu k s)) = Nat.b2n (Ascii.eqb k "S").
Proof.
  rewrite main_doMenu_trace, <- main_ShowMenu_key.
  change (menu_renders (?a :: ?b :: ?t)) with (menu_renders t).
  destruct (Main.first_match k) as [it|]; [apply main_call_menu_renders | reflexivity].
Qed.

Lemma esp_switch_menu_renders (k : ascii) (i : Z) (s : Session) :
  menu_renders (trace (Esp32InternetRadio.doMenu_switch k i s)) =
  Nat.b2n (Ascii.eqb k "S").
Proof.
  pose proof (volume_actions_render_no_menu
                Esp32InternetRadio.CLEAR_LINE_text s eq_refl) as (Hi & Hd & Ht).
  unfold Esp32InternetRadio.doMenu_switch.
  destruct (Ascii.eqb k "S"); [reflexivity|].
  destruct (Ascii.eqb k "C"); [reflexivity|].
  destruct (Ascii.eqb k "T"); [exact Ht|].
  destruct (Ascii.eqb k "!"); [reflexivity|].
  destruct (Ascii.eqb k "."); [reflexivity|].
  destruct (Ascii.eqb k ","); [reflexivity|].
  destruct (Ascii.eqb k "+"); [exact Hi|].
  destruct (Ascii.eqb k "-"); [exact Hd|].
  reflexivity.
Qed.

Lemma esp_doMenu_menu_renders (k : ascii) (s : Session) :
  menu_renders (trace (Esp32InternetRadio.doMenu k s)) = Nat.b2n (Ascii.eqb k "S").
Proof.
  rewrite esp_doMenu_trace.
  change (menu_renders (?a :: ?b :: ?t)) with (menu_renders t).
  destruct (Esp32InternetRadio.first_match k) as [i|] eqn:Hfm;
    [apply esp_switch_menu_renders|].
  destruct (Ascii.eqb_spec k "S") as [->|]; [discriminate Hfm | reflexivity].
Qed.

Section LoopFacts.

Variable showMenu : M unit.
Variable doMenu : ascii -> M unit.
Hypothesis showMenu_renders :
  forall s, menu_renders (trace (showMenu s)) = 1%nat.
Hypothesis doMenu_renders :
  forall k s, menu_renders (trace (doMenu k s)) = Nat.b2n (Ascii.eqb k "S").

(** One call of [loop()] shows the menu by itself only if [done] was clear,
    and then sets it; it never clears it. *)
Lemma loop_menu_renders (st : LoopStatics * Session) (i : Input) :
  let r := ControlLoop.loop showMenu doMenu st i in
  menu_renders (snd r) =
    (Nat.b2n (negb (done (fst st)) && done (fst (fst r))) +
     Nat.b2n (is_ShowMenu_key i))%nat /\
  Bool.le (done (fst st)) (done (fst (fst r))).
Proof.
  unfold ControlLoop.loop, is_ShowMenu_key. cbn [fst snd done].
  destruct (done (fst st)).
  - cbn [fst snd negb andb Nat.b2n Nat.add Bool.le]. split; [|reflexivity].
    rewrite !menu_renders_app.
    destruct (serial_rx i) as [k|]; [rewrite doMenu_renders|]; reflexivity.
  - cbn [negb andb Bool.le]. split; [|exact I].
    rewrite !menu_renders_app.
    destruct (fst (waitIsOver _ _ _ _)); [rewrite showMenu_renders|];
      (destruct (serial_rx i) as [k|]; [rewrite doMenu_renders|]); reflexivity.
Qed.

End LoopFacts.

Lemma step_menu_renders (sk : Sketch) (m : Machine) (i : Input) :
  pc m = Looping ->
  let r := step_of sk m i in
  pc (fst r) = Looping /\
  menu_renders (snd r) =
    (Nat.b2n (negb (done (statics m)) && done (statics (fst r))) +
     Nat.b2n (is_ShowMenu_key i))%nat /\
  Bool.le (done (statics m)) (done (statics (fst r))).
Proof.
  intros Hpc.
  destruct sk; cbn [step_of]; unfold Main.step, Esp32InternetRadio.step;
    rewrite Hpc; cbn [fst snd pc statics]; (split; [reflexivity|]).
  - apply (loop_menu_renders (Main.showMenu "") Main.doMenu
             (fun s => eq_refl) main_doMenu_menu_renders (statics m, session m) i).
  - apply (loop_menu_renders Esp32InternetRadio.showMenu Esp32InternetRadio.doMenu
             (fun s => eq_refl) esp_doMenu_menu_renders (statics m, session m) i).
Qed.

Lemma run_menu_renders (sk : Sketch) (inputs : list Input) (m : Machine) :
  pc m = Looping ->
  let r := run (step_of sk) m inputs in
  menu_renders (snd r) =
    (Nat.b2n (negb (done (statics m)) && done (statics (fst r))) +
     ShowMenu_keys inputs)%nat /\
  Bool.le (done (statics m)) (done (statics (fst r))).
Proof.
  revert m. induction inputs as [|i rest IH]; intros m Hpc; cbn [run fst snd].
  - unfold ShowMenu_keys. cbn. destruct (done (statics m)); cbn; auto.
  - destruct (step_menu_renders sk m i Hpc) as (Hpc1 & Hr1 & Hle1).
    destruct (IH _ Hpc1) as (Hr2 & Hle2).
    cbv zeta in *. rewrite menu_renders_app, Hr1, Hr2.
    unfold ShowMenu_keys. cbn [filter].
    destruct (done (statics m)), (done (statics (fst (step_of sk m i)))),
             (done (statics (fst (run (step_of sk) (fst (step_of sk m i)) rest)))),
             (is_ShowMenu_key i);
      cbn in *; try discriminate; split; (lia || reflexivity || exact I).
Qed.

(** Before [loop] is entered nothing shows the menu and [done] is not
    touched. *)
Lemma step_menu_renders_startup (sk : Sketch) (m : Machine) (i : Input) :
  pc m <> Looping ->
  menu_renders (snd (step_of sk m i)) = 0%nat /\
  statics (fst (step_of sk m i)) = statics m.
Proof.
  intros Hpc.
  destruct sk; cbn [step_of]; unfold Main.step, Esp32InternetRadio.step;
    destruct (pc m); try contradiction; cbn [fst snd statics];
    try destruct (wifi_ok i); split; reflexivity.
Qed.

Lemma run_menu_renders_le (sk : Sketch) (inputs : list Input) (m : Machine) :
  (menu_renders (snd (run (step_of sk) m inputs)) + Nat.b2n (done (statics m))
   <= 1 + ShowMenu_keys inputs)%nat.
Proof.
  revert m. induction inputs as [|i rest IH]; intros m; cbn [run fst snd].
  - destruct (done (statics m)); cbn; lia.
  - rewrite menu_renders_app. specialize (IH (fst (step_of sk m i))).
    unfold ShowMenu_keys in *. cbn [filter].
    assert (Hpc : {pc m = Looping} + {pc m <> Looping})
      by (destruct (pc m); (now left) || (right; discriminate)).
    destruct Hpc as [Hpc|Hpc].
    + destruct (step_menu_renders sk m i Hpc) as (_ & Hr1 & Hle1).
      cbv zeta in *. rewrite Hr1.
      destruct (done (statics m)), (done (statics (fst (step_of sk m i)))),
               (is_ShowMenu_key i); cbn in *; try discriminate; lia.
    + destruct (step_menu_renders_startup sk m i Hpc) as [Hr1 Hst].
      rewrite Hr1. rewrite Hst in IH.
      destruct (is_ShowMenu_key i); cbn [List.length]; lia.
Qed.

(** C10: [loop] shows the menu by itself at most once: only while its static
    [done] is clear, and it sets [done] when it does; nothing ever clears
    [done].  So in a run of [loop] calls the menu is rendered once for each
    ['S'] read, plus once if [done] went from clear to set; and in a whole
    run from power-on, at most once more often than ['S'] was offered. *)
Theorem C10_menu_shown_once_by_itself
  (sk : Sketch) (m : Machine) (inputs : list Input) (Hpc : pc m = Looping) :
  let r := run (step_of sk) m inputs in
  menu_renders (snd r) =
    (Nat.b2n (negb (done (statics m)) && done (statics (fst r))) +
     ShowMenu_keys inputs)%nat /\
  Bool.le (done (statics m)) (done (statics (fst r))) /\
  (forall inputs0 : list Input,
      (menu_renders (snd (run (step_of sk) (boot_of sk) inputs0))
       <= 1 + ShowMenu_keys inputs0)%nat).
Proof.
  cbv zeta.
  destruct (run_menu_renders sk inputs m Hpc) as [H1 H2].
  split; [exact H1 | split; [exact H2|]].
  intros inputs0. pose proof (run_menu_renders_le sk inputs0 (boot_of sk)) as H.
  lia.
Qed.

Lemma C10_menu_shown_once_by_itself_witness :
  menu_renders
    (snd (run (step_of main_cpp) (mkMachine Looping Main.init statics0)
              [mkInput true 100 200 201 None;
               mkInput true 0 6000 6001 (Some "S"%char);
               mkInput true 0 20000 20001 (Some "+"%char);
               mkInput true 0 40000 40001 (Some "S"%char)])) = 3%nat.
Proof.
  apply (C10_menu_shown_once_by_itself main_cpp
           (mkMachine Looping Main.init statics0)
           [mkInput true 100 200 201 None;
            mkInput true 0 6000 6001 (Some "S"%char);
            mkInput true 0 20000 20001 (Some "+"%char);
            mkInput true 0 40000 40001 (Some "S"%char)]).
  reflexivity.
Defined.

(** ** The menu listing *)

(** [showMenu] writes the title, then one line per entry of the table, in
    table order, each entry once, then the prompt; it changes no global and
    calls nothing but [Serial]. *)
Theorem showMenu_lists_every_entry_in_order (x : string) (s : Session) :
  (final (Main.showMenu x s) = s /\
   trace (Main.showMenu x s) =
     (Serial_print TITLE :: map main_menu_line Main.menu ++
      [Serial_print (LF ++ "Press a key: ")])%list) /\
  (final (Esp32InternetRadio.showMenu s) = s /\
   trace (Esp32InternetRadio.showMenu s) =
     (Serial_print TITLE :: map esp_menu_line Esp32InternetRadio.station ++
      [Serial_print (LF ++ "Press a key: ")])%list).
Proof.
  destruct (main_showMenu_items_run Main.menu s) as [Hf1 Ht1].
  destruct (esp_showMenu_items_run Esp32InternetRadio.station s) as [Hf2 Ht2].
  unfold Main.showMenu, Esp32InternetRadio.showMenu.
  rewrite !final_bind, !trace_bind. cbn [emit final trace fst snd].
  rewrite Hf1, Ht1, Hf2, Ht2. repeat split.
Qed.

(** ** Every entry answers to its key *)

(** The keys of a table are pairwise distinct, so the [for] loop of [doMenu]
    stops at the entry itself: on the key of the entry at index [n], [doMenu]
    reads the key, clears the line and then does what that entry's action
    ([main.cpp]), or the [switch] entered at index [n]
    ([esp32InternetRadio.cpp]), does, and nothing else. *)
Theorem every_entry_answers_to_its_key (sk : Sketch) (n : nat) (s : Session)
  (Hn : (n < List.length (keys_of sk))%nat) :
  match sk with
  | main_cpp =>
      let it := Main.menu_at (Z.of_nat n) in
      Main.first_match (Main.key it) = Some it /\
      final (Main.doMenu (Main.key it) s) =
        final (Main.call (Main.action it) (Main.arg it) s) /\
      trace (Main.doMenu (Main.key it) s) =
        Serial_read (Main.key it) :: Serial_print Main.CLEAR_LINE_text ::
        trace (Main.call (Main.action it) (Main.arg it) s)
  | esp32InternetRadio_cpp =>
      let st := Esp32InternetRadio.station_at (Z.of_nat n) in
      Esp32InternetRadio.first_match (Esp32InternetRadio.key st)
        = Some (Z.of_nat n) /\
      final (Esp32InternetRadio.doMenu (Esp32InternetRadio.key st) s) =
        final (Esp32InternetRadio.doMenu_switch
                 (Esp32InternetRadio.key st) (Z.of_nat n) s) /\
      trace (Esp32InternetRadio.doMenu (Esp32InternetRadio.key st) s) =
        Serial_read (Esp32InternetRadio.key st) ::
        Serial_print Esp32InternetRadio.CLEAR_LINE_text ::
        trace (Esp32InternetRadio.doMenu_switch
                 (Esp32InternetRadio.key st) (Z.of_nat n) s)
  end.
Proof.
  destruct sk; cbv zeta.
  - assert (H : Main.first_match (Main.key (Main.menu_at (Z.of_nat n)))
                = Some (Main.menu_at (Z.of_nat n))).
    { cbn in Hn. do 33 (destruct n as [|n]; [reflexivity|]). lia. }
    rewrite main_doMenu_final, main_doMenu_trace, H. repeat split.
  - assert (H : Esp32InternetRadio.first_match
                  (Esp32InternetRadio.key
                     (Esp32InternetRadio.station_at (Z.of_nat n)))
                = Some (Z.of_nat n)).
    { cbn in Hn. do 32 (destruct n as [|n]; [reflexivity|]). lia. }
    rewrite esp_doMenu_final, esp_doMenu_trace, H. repeat split.
Qed.

Lemma every_entry_answers_to_its_key_witness :
  Main.first_match (Main.key (Main.menu_at 30)) = Some (Main.menu_at 30) /\
  Esp32InternetRadio.first_match
    (Esp32InternetRadio.key (Esp32InternetRadio.station_at 31)) = Some 31.
Proof.
  split.
  - apply (every_entry_answers_to_its_key main_cpp 30 Main.init).
    simpl. lia.
  - apply (every_entry_answers_to_its_key esp32InternetRadio_cpp 31
             Esp32InternetRadio.init).
    simpl. lia.
Defined.

(** ** The event handlers *)

(** Every event handler writes a label of 12 characters, the text it was
    given and an end of line; it changes no global and calls nothing but
    [Serial]. *)
Theorem event_handlers_only_report (info : string) (s : Session) :
  Forall (fun h : string -> M unit =>
            final (h info s) = s /\
            filter (fun e => negb (is_render e)) (trace (h info s)) = [] /\
            exists label,
              String.length label = 12%nat /\
              serial_text (trace (h info s)) = label ++ info ++ CR ++ LF)
         event_handlers.
Proof.
  assert (Hnil : forall x : string, x ++ "" = x)
    by (induction x as [|c x IH]; cbn; [reflexivity | now rewrite IH]).
  unfold event_handlers.
  repeat (apply Forall_cons;
          [split; [reflexivity | split; [reflexivity|]];
           match goal with
           | |- context [trace (?h info s)] =>
               let t := eval cbv in (trace (h EmptyString s)) in
               match t with
               | Serial_print ?label :: _ =>
                   exists label; split; [reflexivity|];
                   cbn -[String.append]; now rewrite Hnil
               end
           end|]).
  apply Forall_nil.
Qed.

(** ** More on the volume controller *)

(** From a level in 0..21, [n] calls of [incrementVolume] give
    [min 21 (level + n)] and [n] calls of [decrementVolume] give
    [max 0 (level - n)]: the level saturates at either bound, never wraps and
    never goes negative. *)
Theorem volume_after_repeated_steps (sk : Sketch) (s : Session) (n : nat)
  (Hs : volume_in_range s) :
  currentVolume (final (times n (incrementVolume_of sk) s)) =
    Z.min MAX_VOLUME (currentVolume s + Z.of_nat n) /\
  currentVolume (final (times n (decrementVolume_of sk) s)) =
    Z.max 0 (currentVolume s - Z.of_nat n).
Proof.
  destruct Hs as [Hlo Hhi]. unfold MIN_VOLUME in Hlo.
  destruct sk; cbn [incrementVolume_of decrementVolume_of];
    unfold Main.incrementVolume, Main.decrementVolume,
           Esp32InternetRadio.incrementVolume, Esp32InternetRadio.decrementVolume;
    (split; [now apply times_incrementVolume | now apply times_decrementVolume]).
Qed.

Lemma volume_after_repeated_steps_witness :
  currentVolume (final (times 15 (incrementVolume_of main_cpp) Main.init)) =
    Z.min MAX_VOLUME (currentVolume Main.init + Z.of_nat 15) /\
  currentVolume (final (times 15 (decrementVolume_of main_cpp) Main.init)) =
    Z.max 0 (currentVolume Main.init - Z.of_nat 15).
Proof.
  apply (volume_after_repeated_steps main_cpp Main.init 15).
  unfold volume_in_range. simpl.
  unfold MIN_VOLUME, MAX_VOLUME, DEFAULT_VOLUME. lia.
Defined.

(** [decrementVolume] undoes [incrementVolume] and leaves all globals as they
    were, except at the ceiling, where the pair ends one below; and
    [incrementVolume] undoes [decrementVolume], except at the floor, where
    the pair ends at 1. *)
Theorem volume_step_round_trip (sk : Sketch) (s : Session)
  (Hs : volume_in_range s) :
  final (decrementVolume_of sk (final (incrementVolume_of sk s))) =
    (if currentVolume s =? MAX_VOLUME
     then set_currentVolume (MAX_VOLUME - 1) s else s) /\
  final (incrementVolume_of sk (final (decrementVolume_of sk s))) =
    (if currentVolume s =? 0 then set_currentVolume 1 s else s).
Proof.
  destruct Hs as [Hlo Hhi]. unfold MIN_VOLUME, MAX_VOLUME in *.
  destruct sk; cbn [incrementVolume_of decrementVolume_of];
    unfold Main.incrementVolume, Main.decrementVolume,
           Esp32InternetRadio.incrementVolume, Esp32InternetRadio.decrementVolume;
    rewrite !incrementVolume_final, !decrementVolume_final;
    unfold set_currentVolume, MAX_VOLUME; cbn [currentVolume currentStation currentUrl spkrIsOn];
    destruct (Z.ltb_spec (currentVolume s) 21);
    destruct (Z.gtb_spec (currentVolume s) 0);
    destruct (Z.eqb_spec (currentVolume s) 21);
    destruct (Z.eqb_spec (currentVolume s) 0); try lia;
    repeat match goal with
           | |- context [?a <? 21] => destruct (Z.ltb_spec a 21); try lia
           | |- context [?a >? 0] => destruct (Z.gtb_spec a 0); try lia
           end;
    split;
    try (rewrite <- (session_eta s) at 5);
    try (rewrite <- (session_eta s) at 9);
    f_equal; try lia; try reflexivity.
Qed.

Lemma volume_step_round_trip_witness :
  final (decrementVolume_of main_cpp (final (incrementVolume_of main_cpp Main.init)))
    = Main.init /\
  final (incrementVolume_of main_cpp
           (final (decrementVolume_of main_cpp (set_currentVolume 0 Main.init))))
    = set_currentVolume 1 (set_currentVolume 0 Main.init).
Proof.
  split.
  - apply (volume_step_round_trip main_cpp Main.init).
    unfold volume_in_range. simpl.
    unfold MIN_VOLUME, MAX_VOLUME, DEFAULT_VOLUME. lia.
  - apply (volume_step_round_trip main_cpp (set_currentVolume 0 Main.init)).
    unfold volume_in_range. simpl. unfold MIN_VOLUME, MAX_VOLUME. lia.
Defined.

(** ** What the engine is told *)

(** [toggleSpeaker] sends one command to the engine.  Switching off sends
    level 0 and keeps [currentVolume]; switching on sends the level that is
    then stored, which is audible: between 1 and 21. *)
Theorem toggleSpeaker_engine_level (sk : Sketch) (s : Session)
  (Hs : volume_in_range s) :
  let r := toggleSpeaker_of sk s in
  if spkrIsOn s
  then engine_commands r = [audio_setVolume 0] /\
       currentVolume (final r) = currentVolume s
  else engine_commands r = [audio_setVolume (currentVolume (final r))] /\
       1 <= currentVolume (final r) <= MAX_VOLUME.
Proof.
  destruct Hs as [Hlo Hhi]. unfold MIN_VOLUME, MAX_VOLUME in *.
  destruct sk; cbn [toggleSpeaker_of];
    unfold Main.toggleSpeaker, Esp32InternetRadio.toggleSpeaker, engine_commands;
    cbv zeta; rewrite toggleSpeaker_final, toggleSpeaker_trace;
    unfold MIN_VOLUME, MAX_VOLUME, DEFAULT_VOLUME;
    destruct (spkrIsOn s); cbn;
    try destruct (Z.eqb_spec (currentVolume s) 0);
    repeat split; cbn; lia.
Qed.

Lemma toggleSpeaker_engine_level_witness :
  engine_commands
    (toggleSpeaker_of main_cpp
       (set_spkrIsOn false (set_currentVolume 0 Main.init)))
  = [audio_setVolume
       (currentVolume
          (final (toggleSpeaker_of main_cpp
                    (set_spkrIsOn false (set_currentVolume 0 Main.init)))))] /\
  1 <= currentVolume
         (final (toggleSpeaker_of main_cpp
                   (set_spkrIsOn false (set_currentVolume 0 Main.init))))
    <= MAX_VOLUME.
Proof.
  apply (toggleSpeaker_engine_level main_cpp
           (set_spkrIsOn false (set_currentVolume 0 Main.init))).
  unfold volume_in_range. simpl. unfold MIN_VOLUME, MAX_VOLUME. lia.
Defined.

Lemma engine_volume_app (ev : option Z) (t1 t2 : Trace) :
  engine_volume ev (t1 ++ t2)%list = engine_volume (engine_volume ev t1) t2.
Proof.
  revert ev. induction t1 as [|e t1 IH]; intros ev; [reflexivity|].
  destruct e; cbn; apply IH.
Qed.

Lemma engine_volume_renders (ev : option Z) (t : Trace) :
  forallb (fun e => negb (is_setVolume e)) t = true -> engine_volume ev t = ev.
Proof.
  revert ev. induction t as [|e t IH]; intros ev H; [reflexivity|].
  cbn in H. apply andb_prop in H as [He Ht].
  destruct e; cbn in *; try discriminate; now apply IH.
Qed.

(** What the three volume actions tell the engine, from globals in range
    which the engine mirrors. *)
Lemma volume_actions_engine (cl : string) (s : Session) (ev : option Z) :
  volume_in_range s -> engine_mirrors s ev ->
  (forallb setVolume_in_range (trace (VolumeController.incrementVolume cl s)) = true /\
   engine_mirrors (final (VolumeController.incrementVolume cl s))
     (engine_volume ev (trace (VolumeController.incrementVolume cl s)))) /\
  (forallb setVolume_in_range (trace (VolumeController.decrementVolume cl s)) = true /\
   engine_mirrors (final (VolumeController.decrementVolume cl s))
     (engine_volume ev (trace (VolumeController.decrementVolume cl s)))) /\
  (forallb setVolume_in_range (trace (VolumeController.toggleSpeaker cl s)) = true /\
   engine_mirrors (final (VolumeController.toggleSpeaker cl s))
     (engine_volume ev (trace (VolumeController.toggleSpeaker cl s)))).
Proof.
  intros [Hlo Hhi] Hm. unfold MIN_VOLUME, MAX_VOLUME in *.
  rewrite incrementVolume_final, decrementVolume_final, toggleSpeaker_final,
          incrementVolume_trace, decrementVolume_trace, toggleSpeaker_trace.
  unfold engine_mirrors, MIN_VOLUME, MAX_VOLUME, DEFAULT_VOLUME in *.
  destruct (Z.ltb_spec (currentVolume s) 21);
    destruct (Z.gtb_spec (currentVolume s) 0);
    destruct (Z.eqb_spec (currentVolume s) 0);
    destruct (spkrIsOn s) eqn:Hon;
    cbn [app forallb setVolume_in_range engine_volume final trace fst snd
         set_currentVolume set_spkrIsOn currentVolume spkrIsOn andb];
    unfold MIN_VOLUME, MAX_VOLUME; rewrite ?Hon;
    repeat split;
    try (apply andb_true_intro; split; apply Z.leb_le; lia);
    try reflexivity; try exact Hm; try (now left); try (now right);
    try lia.
Qed.

Lemma renders_set_no_volume (t : Trace) :
  forallb is_render t = true ->
  forallb setVolume_in_range t = true /\
  forall ev, engine_volume ev t = ev.
Proof.
  induction t as [|e t IH]; intros H; [split; reflexivity|].
  cbn in H. apply andb_prop in H as [He Ht]. destruct (IH Ht) as [IH1 IH2].
  destruct e; try discriminate He. cbn. split; [exact IH1 | exact IH2].
Qed.

Lemma main_call_engine (a : Main.Action) (x : string) (s : Session) (ev : option Z) :
  volume_in_range s -> engine_mirrors s ev ->
  forallb setVolume_in_range (trace (Main.call a x s)) = true /\
  engine_mirrors (final (Main.call a x s))
                 (engine_volume ev (trace (Main.call a x s))).
Proof.
  intros Hs Hm.
  destruct (volume_actions_engine Main.CLEAR_LINE_text s ev Hs Hm)
    as (Hi & Hd & Ht).
  destruct a; cbn [Main.call];
    [ | | | | | exact Hi | exact Hd | exact Ht | | ];
    (split; [reflexivity | exact Hm]).
Qed.

Lemma esp_switch_engine (k : ascii) (i : Z) (s : Session) (ev : option Z) :
  volume_in_range s -> engine_mirrors s ev ->
  forallb setVolume_in_range (trace (Esp32InternetRadio.doMenu_switch k i s)) = true /\
  engine_mirrors (final (Esp32InternetRadio.doMenu_switch k i s))
                 (engine_volume ev (trace (Esp32InternetRadio.doMenu_switch k i s))).
Proof.
  intros Hs Hm.
  destruct (volume_actions_engine Esp32InternetRadio.CLEAR_LINE_text s ev Hs Hm)
    as (Hi & Hd & Ht).
  unfold Esp32InternetRadio.doMenu_switch.
  destruct (Ascii.eqb k "S"); [split; [reflexivity | exact Hm]|].
  destruct (Ascii.eqb k "C"); [split; [reflexivity | exact Hm]|].
  destruct (Ascii.eqb k "T"); [exact Ht|].
  destruct (Ascii.eqb k "!"); [split; [reflexivity | exact Hm]|].
  destruct (Ascii.eqb k "."); [split; [reflexivity | exact Hm]|].
  destruct (Ascii.eqb k ","); [split; [reflexivity | exact Hm]|].
  destruct (Ascii.eqb k "+"); [exact Hi|].
  destruct (Ascii.eqb k "-"); [exact Hd|].
  split; [reflexivity | exact Hm].
Qed.

Lemma doMenu_engine (sk : Sketch) (k : ascii) (s : Session) (ev : option Z) :
  volume_in_range s /\ engine_mirrors s ev ->
  forallb setVolume_in_range (trace (doMenu_of sk k s)) = true /\
  (volume_in_range (final (doMenu_of sk k s)) /\
   engine_mirrors (final (doMenu_of sk k s))
                  (engine_volume ev (trace (doMenu_of sk k s)))).
Proof.
  intros [Hs Hm].
  pose proof (doMenu_volume_in_range sk k s Hs) as Hs'.
  destruct sk; cbn [doMenu_of] in *.
  - rewrite main_doMenu_final, main_doMenu_trace in *.
    destruct (Main.first_match k) as [it|].
    + destruct (main_call_engine (Main.action it) (Main.arg it) s ev Hs Hm)
        as [H1 H2].
      split; [exact H1 | split; [exact Hs' | exact H2]].
    + split; [reflexivity | split; [exact Hs' | exact Hm]].
  - rewrite esp_doMenu_final, esp_doMenu_trace in *.
    destruct (Esp32InternetRadio.first_match k) as [i|].
    + destruct (esp_switch_engine k i s ev Hs Hm) as [H1 H2].
      split; [exact H1 | split; [exact Hs' | exact H2]].
    + split; [reflexivity | split; [exact Hs' | exact Hm]].
Qed.

Section LoopEngine.

Variable showMenu : M unit.
Variable doMenu : ascii -> M unit.
Variable P : Session -> option Z -> Prop.
Hypothesis showMenu_final : forall s, final (showMenu s) = s.
Hypothesis showMenu_trace : forall s, forallb is_render (trace (showMenu s)) = true.
Hypothesis doMenu_ok :
  forall k s ev, P s ev ->
    forallb setVolume_in_range (trace (doMenu k s)) = true /\
    P (final (doMenu k s)) (engine_volume ev (trace (doMenu k s))).

Lemma loop_engine (st : LoopStatics * Session) (i : Input) (ev : option Z) :
  P (snd st) ev ->
  forallb setVolume_in_range (snd (ControlLoop.loop showMenu doMenu st i)) = true /\
  P (snd (fst (ControlLoop.loop showMenu doMenu st i)))
    (engine_volume ev (snd (ControlLoop.loop showMenu doMenu st i))).
Proof.
  intros HP. unfold ControlLoop.loop. cbn [fst snd].
  set (w := if done (fst st) then _ else _).
  rewrite !forallb_app, !engine_volume_app. cbn [forallb engine_volume setVolume_in_range andb].
  destruct (renders_set_no_volume _ (showMenu_trace (snd st))) as [Hs1 Hs2].
  destruct (fst w).
  - rewrite showMenu_final, Hs1, Hs2. cbn [andb].
    destruct (serial_rx i) as [k|]; [now apply doMenu_ok | split; [reflexivity | exact HP]].
  - cbn [ret final trace fst snd forallb engine_volume andb].
    destruct (serial_rx i) as [k|]; [now apply doMenu_ok | split; [reflexivity | exact HP]].
Qed.

End LoopEngine.

Lemma step_engine (sk : Sketch) (m : Machine) (i : Input) (ev : option Z) :
  engine_state_ok m ev ->
  forallb setVolume_in_range (snd (step_of sk m i)) = true /\
  engine_state_ok (fst (step_of sk m i)) (engine_volume ev (snd (step_of sk m i))).
Proof.
  unfold engine_state_ok. intros [Hs Hpc].
  assert (Hin : (MIN_VOLUME <=? currentVolume (session m)) &&
                (currentVolume (session m) <=? MAX_VOLUME) = true)
    by (destruct Hs; apply andb_true_intro; split; now apply Z.leb_le).
  destruct sk; cbn [step_of]; unfold Main.step, Esp32InternetRadio.step;
    destruct (pc m) eqn:Epc; cbn [fst snd pc session].
  4: { apply (loop_engine (Main.showMenu "") Main.doMenu
                (fun s ev => volume_in_range s /\ engine_mirrors s ev)
                (fun s => eq_refl) (fun s => eq_refl)
                (doMenu_engine main_cpp) (statics m, session m) i ev).
       split; assumption. }
  7: { apply (loop_engine Esp32InternetRadio.showMenu Esp32InternetRadio.doMenu
                (fun s ev => volume_in_range s /\ engine_mirrors s ev)
                (fun s => eq_refl) (fun s => eq_refl)
                (doMenu_engine esp32InternetRadio_cpp) (statics m, session m) i ev).
       split; assumption. }
  all: destruct Hpc as [-> Hon]; rewrite ?Epc; try destruct (wifi_ok i);
    cbn; rewrite ?Hin; unfold engine_mirrors; cbn; rewrite ?Hon;
    repeat split; try exact Hon; try apply Hs.
Qed.

Lemma run_engine (sk : Sketch) (inputs : list Input) (m : Machine) (ev : option Z) :
  engine_state_ok m ev ->
  forallb setVolume_in_range (snd (run (step_of sk) m inputs)) = true /\
  engine_state_ok (fst (run (step_of sk) m inputs))
                  (engine_volume ev (snd (run (step_of sk) m inputs))).
Proof.
  revert m ev. induction inputs as [|i rest IH]; intros m ev H; cbn [run fst snd].
  - split; [reflexivity | exact H].
  - destruct (step_engine sk m i ev H) as [H1 H2].
    destruct (IH _ _ H2) as [H3 H4].
    rewrite forallb_app, engine_volume_app, H1, H3. split; [reflexivity | exact H4].
Qed.

Lemma boot_engine_state_ok (sk : Sketch) : engine_state_ok (boot_of sk) None.
Proof.
  destruct sk; (split; [apply (init_volume_in_range main_cpp) | split; reflexivity]).
Qed.

(** In every run of either sketch from power-on, each [audio.setVolume] call
    has an argument within 0..21. *)
Theorem engine_level_always_in_range (sk : Sketch) (inputs : list Input) :
  forallb setVolume_in_range (snd (run (step_of sk) (boot_of sk) inputs)) = true.
Proof. exact (proj1 (run_engine sk inputs _ None (boot_engine_state_ok sk))). Qed.

(** In every run of either sketch from power-on: as long as [setup()] has not
    reached [initAudio] (control is before [setup], in the [while] of
    [initWiFi], or in the failure heartbeat) no level was sent to the engine;
    once [setup()] has returned, where [initAudio] sent the initial level,
    the level last sent to the engine is [currentVolume] whenever the
    speaker flag is on, and 0 or [currentVolume] when it is off (a volume
    key pressed while the speaker is off sends the new level to the engine
    and leaves the flag off). *)
Theorem engine_level_mirrors_globals (sk : Sketch) (inputs : list Input) :
  let r := run (step_of sk) (boot_of sk) inputs in
  match pc (fst r) with
  | Looping => engine_mirrors (session (fst r)) (engine_volume None (snd r))
  | _ => engine_volume None (snd r) = None
  end.
Proof.
  cbv zeta.
  destruct (run_engine sk inputs (boot_of sk) None (boot_engine_state_ok sk))
    as [_ [_ H]].
  destruct (pc (fst (run (step_of sk) (boot_of sk) inputs))); [| | |exact H];
    apply H.
Qed.

(** With the speaker off, a volume key reaches the engine all the same:
    after ['T'] and then ['+'] from the initial globals the flag is still
    off and the engine is at level 11. *)
Example volume_key_while_speaker_off :
  let r1 := Main.doMenu "T" Main.init in
  let r2 := Main.doMenu "+" (final r1) in
  spkrIsOn (final r2) = false /\
  engine_volume None (trace r1 ++ trace r2)%list = Some 11.
Proof. split; reflexivity. Qed.

(** ** What a dispatch may do *)

Lemma volume_actions_events (cl : string) (s : Session) :
  forallb (fun e => is_render e || is_setVolume e)
          (trace (VolumeController.incrementVolume cl s)) = true /\
  forallb (fun e => is_render e || is_setVolume e)
          (trace (VolumeController.decrementVolume cl s)) = true /\
  forallb (fun e => is_render e || is_setVolume e)
          (trace (VolumeController.toggleSpeaker cl s)) = true.
Proof.
  rewrite incrementVolume_trace, decrementVolume_trace, toggleSpeaker_trace.
  destruct (currentVolume s <? MAX_VOLUME), (currentVolume s >? 0), (spkrIsOn s);
    repeat split; reflexivity.
Qed.

Lemma forallb_weaken (f g : Event -> bool) (t : Trace) :
  (forall e, f e = true -> g e = true) ->
  forallb f t = true -> forallb g t = true.
Proof.
  intros Hfg. induction t as [|e t IH]; cbn; [reflexivity|].
  intros H. apply andb_prop in H as [He Ht].
  now rewrite (Hfg e He), IH.
Qed.

Lemma render_or_setVolume_is_command (e : Event) :
  is_render e || is_setVolume e = true ->
  is_render e || is_engine_command e = true.
Proof. destruct e; cbn; congruence. Qed.

(** The trace of a dispatch: the key read, then writes to [Serial] and
    commands to the engine. *)
Lemma doMenu_trace_shape (sk : Sketch) (k : ascii) (s : Session) :
  exists t,
    trace (doMenu_of sk k s) = Serial_read k :: t /\
    forallb (fun e => is_render e || is_engine_command e) t = true.
Proof.
  destruct (volume_actions_events Main.CLEAR_LINE_text s) as (Hi1 & Hd1 & Ht1).
  destruct (volume_actions_events Esp32InternetRadio.CLEAR_LINE_text s)
    as (Hi2 & Hd2 & Ht2).
  pose proof (fun t => forallb_weaken _ _ t render_or_setVolume_is_command) as W.
  destruct sk; cbn [doMenu_of]; eexists; (split; [|]).
  - apply main_doMenu_trace.
  - cbn [forallb is_render orb andb].
    destruct (Main.first_match k) as [it|]; [|reflexivity].
    destruct (Main.action it); cbn [Main.call];
      [ | | | | | exact (W _ Hi1) | exact (W _ Hd1) | exact (W _ Ht1) | | ];
      reflexivity.
  - apply esp_doMenu_trace.
  - cbn [forallb is_render orb andb].
    destruct (Esp32InternetRadio.first_match k) as [i|]; [|reflexivity].
    unfold Esp32InternetRadio.doMenu_switch.
    destruct (Ascii.eqb k "S"); [reflexivity|].
    destruct (Ascii.eqb k "C"); [reflexivity|].
    destruct (Ascii.eqb k "T"); [exact (W _ Ht2)|].
    destruct (Ascii.eqb k "!"); [reflexivity|].
    destruct (Ascii.eqb k "."); [reflexivity|].
    destruct (Ascii.eqb k ","); [reflexivity|].
    destruct (Ascii.eqb k "+"); [exact (W _ Hi2)|].
    destruct (Ascii.eqb k "-"); [exact (W _ Hd2)|].
    reflexivity.
Qed.

(** All a dispatch does to the outside, after reading the key, is write to
    [Serial] and send commands to the engine: it reads no second key, never
    waits, never touches the network and does not run the engine's service
    step. *)
Theorem dispatch_only_writes_and_commands (sk : Sketch) (k : ascii) (s : Session) :
  exists t,
    trace (doMenu_of sk k s) = Serial_read k :: t /\
    forallb (fun e => is_render e || is_engine_command e) t = true /\
    count_events is_command_input (trace (doMenu_of sk k s)) = 1%nat /\
    count_events (fun e => negb (is_command_input e || is_render e
                                 || is_engine_command e))
                 (trace (doMenu_of sk k s)) = 0%nat.
Proof.
  destruct (doMenu_trace_shape sk k s) as (t & Ht & Hall).
  exists t. rewrite Ht. split; [reflexivity | split; [exact Hall|]].
  unfold count_events. cbn [filter is_command_input negb orb List.length].
  clear Ht. induction t as [|e t IH]; [split; reflexivity|].
  cbn in Hall. apply andb_prop in Hall as [He Hall]. destruct (IH Hall) as [IH1 IH2].
  destruct e; cbn in He; try discriminate He; cbn; split; assumption.
Qed.

(** ** The main loop *)

Lemma no_input_no_service (t : Trace) :
  forallb (fun e => is_render e || is_engine_command e) t = true ->
  count_events is_audio_loop t = 0%nat /\
  count_events is_command_input t = 0%nat.
Proof.
  unfold count_events. induction t as [|e t IH]; intros H; [split; reflexivity|].
  cbn in H. apply andb_prop in H as [He Ht]. destruct (IH Ht) as [IH1 IH2].
  destruct e; cbn in He; try discriminate He; cbn; split; assumption.
Qed.

Lemma count_events_app (f : Event -> bool) (t1 t2 : Trace) :
  count_events f (t1 ++ t2)%list = (count_events f t1 + count_events f t2)%nat.
Proof. unfold count_events. now rewrite filter_app, length_app. Qed.

Section LoopCounts.

Variable showMenu : M unit.
Variable doMenu : ascii -> M unit.
Hypothesis showMenu_trace : forall s, forallb is_render (trace (showMenu s)) = true.
Hypothesis doMenu_trace :
  forall k s, exists t,
      trace (doMenu k s) = Serial_read k :: t /\
      forallb (fun e => is_render e || is_engine_command e) t = true.

Lemma loop_counts (st : LoopStatics * Session) (i : Input) :
  count_events is_audio_loop (snd (ControlLoop.loop showMenu doMenu st i)) = 1%nat /\
  count_events is_command_input (snd (ControlLoop.loop showMenu doMenu st i))
    = Nat.b2n (has_key i).
Proof.
  unfold ControlLoop.loop, has_key. cbn [fst snd].
  set (w := if done (fst st) then _ else _).
  rewrite !count_events_app.
  assert (H1 : count_events is_audio_loop
                 (trace (if fst w then showMenu (snd st) else ret tt (snd st))) = 0%nat /\
               count_events is_command_input
                 (trace (if fst w then showMenu (snd st) else ret tt (snd st))) = 0%nat).
  { destruct (fst w); [|split; reflexivity].
    apply no_input_no_service.
    apply (forallb_weaken is_render); [|apply showMenu_trace].
    intros e He. now rewrite He. }
  destruct H1 as [H1a H1b]. rewrite H1a, H1b.
  destruct (serial_rx i) as [k|]; [|split; reflexivity].
  destruct (doMenu_trace k (final (if fst w then showMenu (snd st) else ret tt (snd st))))
    as (t & Ht & Hall).
  rewrite Ht. destruct (no_input_no_service t Hall) as [Ha Hb].
  unfold count_events in *. cbn [filter is_audio_loop is_command_input List.length].
  rewrite Ha, Hb. split; reflexivity.
Qed.

End LoopCounts.

Lemma step_counts (sk : Sketch) (m : Machine) (i : Input) :
  pc m = Looping ->
  pc (fst (step_of sk m i)) = Looping /\
  count_events is_audio_loop (snd (step_of sk m i)) = 1%nat /\
  count_events is_command_input (snd (step_of sk m i)) = Nat.b2n (has_key i).
Proof.
  intros Hpc.
  destruct sk; cbn [step_of]; unfold Main.step, Esp32InternetRadio.step;
    rewrite Hpc; cbn [fst snd pc]; (split; [reflexivity|]).
  - apply (loop_counts (Main.showMenu "") Main.doMenu (fun s => eq_refl)
             (doMenu_trace_shape main_cpp)).
  - apply (loop_counts Esp32InternetRadio.showMenu Esp32InternetRadio.doMenu
             (fun s => eq_refl) (doMenu_trace_shape esp32InternetRadio_cpp)).
Qed.

(** Once in [loop], every call runs the engine's service step
    [audio.loop()] exactly once, whether or not a key is pending or the menu
    is due, and reads at most one key: in a run of [n] calls there are [n]
    service steps and as many keys read as inputs that brought one. *)
Theorem loop_services_engine_every_turn
  (sk : Sketch) (m : Machine) (inputs : list Input) (Hpc : pc m = Looping) :
  let r := run (step_of sk) m inputs in
  pc (fst r) = Looping /\
  count_events is_audio_loop (snd r) = List.length inputs /\
  count_events is_command_input (snd r) = List.length (filter has_key inputs).
Proof.
  cbv zeta. revert m Hpc.
  induction inputs as [|i rest IH]; intros m Hpc; cbn [run fst snd].
  - repeat split. exact Hpc.
  - destruct (step_counts sk m i Hpc) as (Hpc1 & Ha & Hb).
    destruct (IH _ Hpc1) as (Hpc2 & Ha2 & Hb2).
    rewrite !count_events_app, Ha, Hb, Ha2, Hb2. cbn [filter List.length].
    destruct (has_key i); repeat split; try assumption; reflexivity.
Qed.

Lemma loop_services_engine_every_turn_witness :
  count_events is_audio_loop
    (snd (run (step_of esp32InternetRadio_cpp)
              (mkMachine Looping Esp32InternetRadio.init statics0)
              [mkInput true 0 10 10 None;
               mkInput true 0 7000 7001 (Some "+"%char);
               mkInput true 0 8000 8001 (Some "x"%char)])) = 3%nat.
Proof.
  apply (loop_services_engine_every_turn esp32InternetRadio_cpp
           (mkMachine Looping Esp32InternetRadio.init statics0)
           [mkInput true 0 10 10 None;
            mkInput true 0 7000 7001 (Some "+"%char);
            mkInput true 0 8000 8001 (Some "x"%char)]).
  reflexivity.
Defined.

(** The elapsed time of [waitIsOver], with both readings in range. *)
Lemma waitIsOver_elapsed (msPrev msWait now1 now2 : Z)
  (Hp : 0 <= msPrev < 2 ^ 32) (Hn : 0 <= now1 < 2 ^ 32) :
  let elapsed := if msPrev <=? now1 then now1 - msPrev
                 else now1 + 2 ^ 32 - msPrev in
  fst (waitIsOver msPrev msWait now1 now2) = (elapsed >=? msWait) /\
  snd (waitIsOver msPrev msWait now1 now2) =
    (if elapsed >=? msWait then now2 mod 2 ^ 32 else msPrev) /\
  0 <= snd (waitIsOver msPrev msWait now1 now2) < 2 ^ 32.
Proof.
  cbv zeta. unfold waitIsOver, u32.
  assert (He : ((now1 mod 2 ^ 32 - msPrev) mod 2 ^ 32) =
               (if msPrev <=? now1 then now1 - msPrev
                else now1 + 2 ^ 32 - msPrev)).
  { rewrite (Z.mod_small now1) by lia.
    destruct (Z.leb_spec msPrev now1).
    - apply Z.mod_small. lia.
    - replace (now1 - msPrev) with ((now1 + 2 ^ 32 - msPrev) + (-1) * 2 ^ 32) by lia.
      rewrite Z.mod_add by lia. apply Z.mod_small. lia. }
  rewrite He.
  destruct (_ >=? msWait); cbn [fst snd]; repeat split; try lia;
    apply Z.mod_pos_bound; lia.
Qed.

(** [waitIsOver] measures the time elapsed modulo 2^32, so it also works
    across the wrap-around of [millis()]: with both readings in range it
    answers [true] exactly when the elapsed time, counted through the wrap if
    the counter is below [msPrevious], is at least [msWait]; then
    [msPrevious] becomes the reading taken for the assignment, otherwise it is
    unchanged; it stays in range. *)
Theorem waitIsOver_across_wraparound (msPrev msWait now1 now2 : Z)
  (Hp : 0 <= msPrev < 2 ^ 32) (Hn : 0 <= now1 < 2 ^ 32) :
  let elapsed := if msPrev <=? now1 then now1 - msPrev
                 else now1 + 2 ^ 32 - msPrev in
  fst (waitIsOver msPrev msWait now1 now2) = (elapsed >=? msWait) /\
  snd (waitIsOver msPrev msWait now1 now2) =
    (if elapsed >=? msWait then now2 mod 2 ^ 32 else msPrev) /\
  0 <= snd (waitIsOver msPrev msWait now1 now2) < 2 ^ 32.
Proof. exact (waitIsOver_elapsed msPrev msWait now1 now2 Hp Hn). Qed.

Lemma waitIsOver_across_wraparound_witness :
  fst (waitIsOver 4294967000 5000 4704 4705) = (5000 >=? 5000) /\
  snd (waitIsOver 4294967000 5000 4704 4705) = 4705.
Proof.
  destruct (waitIsOver_across_wraparound 4294967000 5000 4704 4705)
    as (H1 & H2 & _); [lia | lia |].
  split; [exact H1 | exact H2].
Defined.

(** ** The station selection *)

(** A key that takes the [default] of the [switch] is the key of one of the
    24 stations. *)
Lemma esp_default_index (k : ascii) (i : Z) :
  Esp32InternetRadio.first_match k = Some i ->
  Esp32InternetRadio.has_case k = false ->
  0 <= i < 24.
Proof.
  destruct k as [[] [] [] [] [] [] [] []]; cbn;
    intros Hi Hc; try discriminate; injection Hi as <-; lia.
Qed.

Lemma esp_switch_selection (k : ascii) (i : Z) (s : Session) :
  let s' := final (Esp32InternetRadio.doMenu_switch k i s) in
  (currentStation s' = currentStation s /\ currentUrl s' = currentUrl s) \/
  (Esp32InternetRadio.has_case k = false /\
   currentStation s' = i /\
   currentUrl s' = Esp32InternetRadio.url (Esp32InternetRadio.station_at i)).
Proof.
  cbv zeta. unfold Esp32InternetRadio.doMenu_switch, Esp32InternetRadio.has_case.
  cbn [existsb].
  destruct (Ascii.eqb k "S"); [left; split; reflexivity|].
  destruct (Ascii.eqb k "C"); [left; split; reflexivity|].
  destruct (Ascii.eqb k "T");
    [left; unfold Esp32InternetRadio.toggleSpeaker; rewrite toggleSpeaker_final;
     destruct (spkrIsOn s); split; reflexivity|].
  destruct (Ascii.eqb k "!"); [left; split; reflexivity|].
  destruct (Ascii.eqb k "."); [left; split; reflexivity|].
  destruct (Ascii.eqb k ","); [left; split; reflexivity|].
  destruct (Ascii.eqb k "+");
    [left; unfold Esp32InternetRadio.incrementVolume;
     rewrite incrementVolume_final; split; reflexivity|].
  destruct (Ascii.eqb k "-");
    [left; unfold Esp32InternetRadio.decrementVolume;
     rewrite decrementVolume_final; split; reflexivity|].
  right. repeat split.
Qed.

Lemma esp_doMenu_selection_consistent (k : ascii) (s : Session) :
  esp_selection_consistent s ->
  esp_selection_consistent (final (Esp32InternetRadio.doMenu k s)).
Proof.
  intros H. rewrite esp_doMenu_final.
  destruct (Esp32InternetRadio.first_match k) as [i|] eqn:Hfm; [|exact H].
  unfold esp_selection_consistent in *.
  destruct (esp_switch_selection k i s) as [[-> ->] | (Hc & -> & ->)];
    [exact H|].
  split; [exact (esp_default_index k i Hfm Hc) | reflexivity].
Qed.

Lemma esp_step_selection_consistent (m : Machine) (i : Input) :
  esp_selection_consistent (session m) ->
  esp_selection_consistent (session (fst (Esp32InternetRadio.step m i))).
Proof.
  intros H. unfold Esp32InternetRadio.step.
  destruct (pc m); cbn [fst session]; try exact H.
  - destruct (wifi_ok i); exact H.
  - unfold Esp32InternetRadio.loop. rewrite loop_session by reflexivity. cbn [snd].
    destruct (serial_rx i); [now apply esp_doMenu_selection_consistent | exact H].
Qed.

(** In every state [esp32InternetRadio.cpp] reaches from power-on,
    [currentStation] is the index of one of the 24 radio stations, never of a
    speech or command entry, and [currentUrl] is the URL of that station: what
    ['C'] reports is always a station and its own URL. *)
Theorem esp_selection_always_a_station (inputs : list Input) :
  esp_selection_consistent
    (session (fst (run Esp32InternetRadio.step Esp32InternetRadio.boot inputs))).
Proof.
  assert (H0 : esp_selection_consistent (session Esp32InternetRadio.boot))
    by (split; [cbn; lia | reflexivity]).
  revert H0. generalize Esp32InternetRadio.boot as m.
  induction inputs as [|i rest IH]; intros m H; cbn [run fst]; [exact H|].
  apply IH. now apply esp_step_selection_consistent.
Qed.

(** In [esp32InternetRadio.cpp], after the key of station [n] the key ['C']
    shows the name and the URL of station [n]. *)
Theorem esp_show_after_select (n : nat) (s : Session) (Hn : (n < 24)%nat) :
  let st := Esp32InternetRadio.station_at (Z.of_nat n) in
  let s1 := final (Esp32InternetRadio.doMenu (Esp32InternetRadio.key st) s) in
  skipn 3 (trace (Esp32InternetRadio.doMenu "C" s1)) =
  [Serial_print ("Current Station: " ++ Esp32InternetRadio.name st ++ " --> "
                 ++ Esp32InternetRadio.url st)] /\
  final (Esp32InternetRadio.doMenu "C" s1) = s1.
Proof.
  cbv zeta. destruct (esp_station_selected n s Hn) as [-> _].
  do 24 (destruct n as [|n]; [split; reflexivity|]). lia.
Qed.

Lemma esp_show_after_select_witness :
  skipn 3 (trace (Esp32InternetRadio.doMenu "C"
                    (final (Esp32InternetRadio.doMenu "6" Esp32InternetRadio.init)))) =
  [Serial_print "Current Station: Swiss Jazz --> http://stream.srg-ssr.ch/m/rsj/mp3_128"].
Proof.
  apply (esp_show_after_select 6 Esp32InternetRadio.init). lia.
Defined.

(** In [main.cpp] no input changes [currentStation] or [currentUrl]: in
    every state reached from power-on they are 5 and the URL of "Swiss
    Classic", and that is what ['C'] shows, whatever was played since. *)
Theorem main_selection_never_changes (inputs : list Input) :
  let s := session (fst (run Main.step Main.boot inputs)) in
  currentStation s = 5 /\
  currentUrl s = Main.arg (Main.menu_at 5) /\
  skipn 3 (trace (Main.doMenu "C" s)) =
  [Serial_print
     "Current Station: Swiss Classic --> http://stream.srg-ssr.ch/m/rsc_de/mp3_128"].
Proof.
  cbv zeta.
  assert (H : currentStation (session (fst (run Main.step Main.boot inputs))) = 5 /\
              currentUrl (session (fst (run Main.step Main.boot inputs)))
              = Main.arg (Main.menu_at 5)).
  { assert (H0 : currentStation (session Main.boot) = 5 /\
                 currentUrl (session Main.boot) = Main.arg (Main.menu_at 5))
      by (split; reflexivity).
    revert H0. generalize Main.boot as m.
    induction inputs as [|i rest IH]; intros m H; cbn [run fst]; [exact H|].
    apply IH. unfold Main.step.
    destruct (pc m); cbn [fst session]; try exact H.
    - destruct (wifi_ok i); exact H.
    - unfold Main.loop. rewrite loop_session by reflexivity. cbn [snd].
      destruct (serial_rx i) as [k|]; [|exact H].
      destruct (main_doMenu_keeps_selection k (session m)) as [-> ->]. exact H. }
  destruct H as [H1 H2]. split; [exact H1 | split; [exact H2|]].
  assert (Hc : forall s0,
             skipn 3 (trace (Main.doMenu "C" s0)) =
             [Serial_print ("Current Station: "
                            ++ Main.txt (Main.menu_at (currentStation s0))
                            ++ " --> " ++ currentUrl s0)]) by reflexivity.
  rewrite Hc, H1, H2. reflexivity.
Qed.

(** ** Waiting for the network *)

(** [esp32InternetRadio.cpp] retries without limit and at a fixed pace:
    while [WiFi.status()] is not [WL_CONNECTED] it stays in the [while] of
    [initWiFi], and each unsuccessful poll writes one "...Connecting to WiFi"
    line and waits 1000 ms; nothing else happens, the engine is not called and
    no key is read. *)
Theorem esp_retries_every_second (i0 : Input) (fails : list Input) :
  let r := run Esp32InternetRadio.step Esp32InternetRadio.boot
               (i0 :: map (with_wifi false) fails) in
  pc (fst r) = WiFiPolling /\
  snd r =
    ([Serial_begin 115200;
      Esp32InternetRadio.println "Connecting to WiFi";
      WiFi_config;
      WiFi_setHostname Esp32InternetRadio.hostname;
      WiFi_begin Esp32InternetRadio.ssid Esp32InternetRadio.password]
     ++ List.concat (repeat [WiFi_status false;
                        Esp32InternetRadio.println "...Connecting to WiFi";
                        delay 1000]
                       (List.length fails)))%list.
Proof.
  cbv zeta. cbn [run].
  set (m1 := fst (Esp32InternetRadio.step Esp32InternetRadio.boot i0)).
  change (snd (Esp32InternetRadio.step Esp32InternetRadio.boot i0))
    with [Serial_begin 115200;
          Esp32InternetRadio.println "Connecting to WiFi";
          WiFi_config;
          WiFi_setHostname Esp32InternetRadio.hostname;
          WiFi_begin Esp32InternetRadio.ssid Esp32InternetRadio.password].
  assert (Hstep : forall i,
             Esp32InternetRadio.step m1 (with_wifi false i) =
             (m1, [WiFi_status false;
                   Esp32InternetRadio.println "...Connecting to WiFi";
                   delay 1000])) by reflexivity.
  assert (H : run Esp32InternetRadio.step m1 (map (with_wifi false) fails) =
              (m1, List.concat (repeat [WiFi_status false;
                                   Esp32InternetRadio.println "...Connecting to WiFi";
                                   delay 1000] (List.length fails)))).
  { induction fails as [|i rest IH]; [reflexivity|].
    cbn [map run List.length repeat List.concat]. rewrite Hstep. cbn [fst snd].
    rewrite IH. reflexivity. }
  rewrite H. split; reflexivity.
Qed.

(** ** When the menu comes by itself *)

(** The statics of [loop] after a call in which the menu was not yet due. *)
Lemma loop_statics_waiting (showMenu : M unit) (doMenu : ascii -> M unit)
      (st : LoopStatics * Session) (i : Input) (t0 : Z) :
  done (fst st) = false ->
  (if entered (fst st) then msPrevious (fst st) else u32 (millis_init i)) = t0 ->
  0 <= t0 -> t0 <= millis_test i < t0 + 5000 -> millis_test i < 2 ^ 32 ->
  fst (fst (ControlLoop.loop showMenu doMenu st i)) = mkStatics true t0 false.
Proof.
  intros Hd Hp H0 Ht Hr. unfold ControlLoop.loop. cbn [fst snd].
  rewrite Hd, Hp.
  destruct (waitIsOver_elapsed t0 5000 (millis_test i) (millis_set i))
    as (H1 & H2 & _); [lia | lia |].
  replace (t0 <=? millis_test i) with true in H1, H2
    by (symmetry; apply Z.leb_le; lia).
  replace (millis_test i - t0 >=? 5000) with false in H1, H2
    by (symmetry; rewrite Z.geb_leb; apply Z.leb_gt; lia).
  now rewrite H1, H2.
Qed.

Lemma run_statics_waiting (sk : Sketch) (t0 : Z) (inputs : list Input) (m : Machine) :
  pc m = Looping -> statics m = mkStatics true t0 false -> 0 <= t0 ->
  Forall (fun j => t0 <= millis_test j < t0 + 5000 /\ millis_test j < 2 ^ 32)
         inputs ->
  statics (fst (run (step_of sk) m inputs)) = mkStatics true t0 false.
Proof.
  intros Hpc Hst H0 Hall. revert m Hpc Hst.
  induction Hall as [|j rest [Hj1 Hj2] _ IH]; intros m Hpc Hst; cbn [run fst];
    [exact Hst|].
  apply IH.
  - now destruct (step_counts sk m j Hpc).
  - destruct sk; cbn [step_of]; unfold Main.step, Esp32InternetRadio.step;
      rewrite Hpc; cbn [fst snd statics];
      apply loop_statics_waiting; rewrite ?Hst; cbn; auto.
Qed.


Lemma run_waiting (sk : Sketch) (s : Session) (i : Input) (rest : list Input) :
  0 <= millis_init i < 2 ^ 32 ->
  Forall (fun j => millis_init i <= millis_test j < millis_init i + 5000 /\
                   millis_test j < 2 ^ 32) (i :: rest) ->
  statics (fst (run (step_of sk) (mkMachine Looping s statics0) (i :: rest)))
  = mkStatics true (millis_init i) false.
Proof.
  intros H0 Hall.
  inversion Hall as [|? ? [Hi1 Hi2] Hrest]; subst.
  cbn [run fst]. apply run_statics_waiting; try assumption; try lia.
  - now destruct (step_counts sk (mkMachine Looping s statics0) i eq_refl).
  - destruct sk; cbn [step_of]; unfold Main.step, Esp32InternetRadio.step;
      cbn [pc fst snd statics];
      apply loop_statics_waiting; cbn; try lia; try reflexivity;
      unfold u32; apply Z.mod_small; lia.
Qed.

(** The menu does not come by itself during the first 5000 ms after the
    first call of [loop()]: while the readings of [millis()] stay less than
    5000 ms after the one taken when [loop] was first entered (no wrap-around
    in between), [done] stays clear, [msPrevious] keeps that first reading
    and the menu is rendered only for the ['S'] keys read. *)
Theorem menu_waits_five_seconds
  (sk : Sketch) (s : Session) (i : Input) (rest : list Input)
  (H0 : 0 <= millis_init i < 2 ^ 32)
  (Hall : Forall (fun j => millis_init i <= millis_test j < millis_init i + 5000 /\
                           millis_test j < 2 ^ 32) (i :: rest)) :
  let r := run (step_of sk) (mkMachine Looping s statics0) (i :: rest) in
  statics (fst r) = mkStatics true (millis_init i) false /\
  menu_renders (snd r) = ShowMenu_keys (i :: rest).
Proof.
  cbv zeta.
  pose proof (run_waiting sk s i rest H0 Hall) as Hst.
  split; [exact Hst|].
  destruct (run_menu_renders sk (i :: rest) (mkMachine Looping s statics0) eq_refl)
    as [Hr _].
  cbv zeta in Hr. rewrite Hr, Hst. reflexivity.
Qed.

Lemma menu_waits_five_seconds_witness :
  menu_renders
    (snd (run (step_of main_cpp) (mkMachine Looping Main.init statics0)
              [mkInput true 1000 1000 1001 None;
               mkInput true 0 3000 3001 (Some "S"%char);
               mkInput true 0 5999 6000 (Some "+"%char)])) = 1%nat.
Proof.
  apply (menu_waits_five_seconds main_cpp Main.init
           (mkInput true 1000 1000 1001 None)
           [mkInput true 0 3000 3001 (Some "S"%char);
            mkInput true 0 5999 6000 (Some "+"%char)]).
  - simpl. lia.
  - repeat constructor; simpl; lia.
Defined.



